(** * A shallow embedding of the voice-controllm daemon's audio pipeline

    The modules below follow the daemon crate:
    - [Vad]        : [VadStateMachine] of src/daemon/src/vad.rs
    - [Audio]      : [AudioBuffer] and [AudioResampler] of src/daemon/src/audio.rs
    - [EngineM]    : [Engine::initialize] and [Engine::run_loop] of src/daemon/src/engine.rs
    - [Ctrl]       : [Controller] of src/daemon/src/controller.rs

    Floating-point samples and probabilities are kept abstract where the code
    only moves them around or compares them; [AudioBuffer::duration_secs]
    uses the binary32 instance of the Standard Library's [SpecFloat].
    Counters of type [usize] are modelled as [nat]: overflowing one needs
    2^64 consecutive VAD chunks. *)

From Stdlib Require Import String.
From Stdlib Require Import List Arith Lia Bool ZArith.
From Stdlib Require Import Floats.SpecFloat.
Import ListNotations.

(* ------------------------------------------------------------------ *)
(** ** vad.rs : the hysteresis state machine *)

Module Vad.

(** [VadEvent] *)
Inductive VadEvent := SpeechStart | SpeechEnd.

Section StateMachine.

(** The probability type ([f32]) and its [>=] comparison; the state machine
    does nothing else with probabilities. *)
Variable f32 : Type.
Variable f32_ge : f32 -> f32 -> bool.

(** [VadConfig] *)
Record VadConfig := {
  threshold : f32;
  min_speech_chunks : nat;
  min_silence_chunks : nat
}.

(** [VadStateMachine] *)
Record VadStateMachine := {
  config : VadConfig;
  is_speaking : bool;
  speech_chunk_count : nat;
  silence_chunk_count : nat
}.

(** [VadStateMachine::new] *)
Definition new (c : VadConfig) : VadStateMachine :=
  {| config := c; is_speaking := false;
     speech_chunk_count := 0; silence_chunk_count := 0 |}.

(** [VadStateMachine::reset] *)
Definition reset (sm : VadStateMachine) : VadStateMachine := new (config sm).

(** [VadStateMachine::process]: the new state and the returned event. *)
Definition process (sm : VadStateMachine) (probability : f32)
  : VadStateMachine * option VadEvent :=
  let c := config sm in
  let is_speech := f32_ge probability (threshold c) in
  if is_speech then
    let speech := S (speech_chunk_count sm) in
    if negb (is_speaking sm) && (min_speech_chunks c <=? speech) then
      ({| config := c; is_speaking := true;
          speech_chunk_count := speech; silence_chunk_count := 0 |},
       Some SpeechStart)
    else
      ({| config := c; is_speaking := is_speaking sm;
          speech_chunk_count := speech; silence_chunk_count := 0 |}, None)
  else
    let silence := S (silence_chunk_count sm) in
    if is_speaking sm && (min_silence_chunks c <=? silence) then
      ({| config := c; is_speaking := false;
          speech_chunk_count := 0; silence_chunk_count := silence |},
       Some SpeechEnd)
    else
      ({| config := c; is_speaking := is_speaking sm;
          speech_chunk_count := 0; silence_chunk_count := silence |}, None).

(** A sequence of [process] calls: the final state and the returned events. *)
Fixpoint process_all (sm : VadStateMachine) (ps : list f32)
  : VadStateMachine * list (option VadEvent) :=
  match ps with
  | [] => (sm, [])
  | p :: rest =>
      let (sm1, ev) := process sm p in
      let (sm2, evs) := process_all sm1 rest in
      (sm2, ev :: evs)
  end.

(** The state after a sequence of calls. *)
Definition state_after (sm : VadStateMachine) (ps : list f32) : VadStateMachine :=
  fold_left (fun s p => fst (process s p)) ps sm.

(** Classification of a chunk by the configured threshold. *)
Definition is_speech_chunk (c : VadConfig) (p : f32) : bool :=
  f32_ge p (threshold c).

(** [exactly one of the two counters is nonzero] *)
Definition exactly_one_nonzero (sm : VadStateMachine) : bool :=
  xorb (0 <? speech_chunk_count sm) (0 <? silence_chunk_count sm).

(** [at most one of the two counters is nonzero] *)
Definition at_most_one_nonzero (sm : VadStateMachine) : bool :=
  (speech_chunk_count sm =? 0) || (silence_chunk_count sm =? 0).

End StateMachine.

Arguments threshold {f32} _.
Arguments min_speech_chunks {f32} _.
Arguments min_silence_chunks {f32} _.
Arguments config {f32} _.
Arguments is_speaking {f32} _.
Arguments speech_chunk_count {f32} _.
Arguments silence_chunk_count {f32} _.
Arguments new {f32} c.
Arguments reset {f32} sm.
Arguments process {f32} f32_ge sm probability.
Arguments process_all {f32} f32_ge sm ps.
Arguments state_after {f32} f32_ge sm ps.
Arguments is_speech_chunk {f32} f32_ge c p.
Arguments exactly_one_nonzero {f32} sm.
Arguments at_most_one_nonzero {f32} sm.

(** Specification-side vocabulary: the length of the run of consecutive
    elements satisfying [f] that ends the list. *)
Fixpoint take_while {A} (f : A -> bool) (l : list A) : list A :=
  match l with
  | [] => []
  | x :: t => if f x then x :: take_while f t else []
  end.

Definition run_length {A} (f : A -> bool) (l : list A) : nat :=
  length (take_while f (rev l)).

End Vad.

(* ------------------------------------------------------------------ *)
(** ** audio.rs : [AudioBuffer] and [AudioResampler] *)

Module Audio.

(** IEEE-754 binary32 ([f32]): 24 bits of precision, maximal exponent 128. *)
Definition prec32 : Z := 24.
Definition emax32 : Z := 128.
Definition f32 := spec_float.

(** [n as f32] for an integer [n] (round to nearest, ties to even). *)
Definition f32_of_Z (n : Z) : f32 := binary_normalize prec32 emax32 n 0 false.

(** [a / b] on [f32]. *)
Definition f32_div (a b : f32) : f32 := SFdiv prec32 emax32 a b.

Definition f32_is_nan (x : f32) : bool :=
  match x with S754_nan => true | _ => false end.

Definition f32_is_finite (x : f32) : bool :=
  match x with S754_zero _ | S754_finite _ _ _ => true | _ => false end.

(** [AudioBuffer]; [sample_rate] is a [u32], kept in [0, 2^32). *)
Record AudioBuffer := {
  samples : list f32;
  sample_rate : Z
}.

(** [AudioBuffer::duration_secs] *)
Definition duration_secs (b : AudioBuffer) : f32 :=
  if Z.eqb (sample_rate b) 0 then S754_zero false
  else f32_div (f32_of_Z (Z.of_nat (length (samples b))))
               (f32_of_Z (sample_rate b)).

Section Resampler.

(** Samples, the state of rubato's [Fft<f32>] resampler, and one call of its
    [process] on one input chunk: the frames read back from the output
    buffer (each [read_sample(0, i).unwrap_or(0.0)]), or an error. Rubato
    is a dependency, not code of this repository. *)
Variable sample : Type.
Variable Fft : Type.
Variable fft_process : Fft -> list sample -> Fft * option (list sample).

(** [AudioResampler] *)
Record AudioResampler := {
  resampler : Fft;
  chunk_size_in : nat;
  chunk_size_out : nat
}.

(** [slice.chunks_exact(n)]: the complete chunks of length [n], the tail
    dropped. (Rust panics for [n = 0]; [AudioResampler::new] is only
    called with 1024.) *)
Fixpoint chunks_exact_fuel (fuel n : nat) (l : list sample) : list (list sample) :=
  match fuel with
  | 0 => []
  | S f =>
      if (0 <? n) && (n <=? length l)
      then firstn n l :: chunks_exact_fuel f n (skipn n l)
      else []
  end.

Definition chunks_exact (n : nat) (l : list sample) : list (list sample) :=
  chunks_exact_fuel (length l) n l.

(** The [for chunk in input_chunks] loop, with [?] on a failing call. *)
Fixpoint process_chunks (r : Fft) (output : list sample) (cs : list (list sample))
  : Fft * option (list sample) :=
  match cs with
  | [] => (r, Some output)
  | chunk :: rest =>
      let (r', res) := fft_process r chunk in
      match res with
      | None => (r', None)
      | Some frames => process_chunks r' (output ++ frames) rest
      end
  end.

(** [AudioResampler::process] *)
Definition process (ar : AudioResampler) (input : list sample)
  : AudioResampler * option (list sample) :=
  match input with
  | [] => (ar, Some [])
  | _ =>
      let (r', res) :=
        process_chunks (resampler ar) [] (chunks_exact (chunk_size_in ar) input) in
      ({| resampler := r'; chunk_size_in := chunk_size_in ar;
          chunk_size_out := chunk_size_out ar |}, res)
  end.

(** [AudioResampler::chunk_size] and [output_chunk_size] *)
Definition chunk_size (ar : AudioResampler) : nat := chunk_size_in ar.
Definition output_chunk_size (ar : AudioResampler) : nat := chunk_size_out ar.

End Resampler.

Arguments chunks_exact {sample} n l.
Arguments process {sample Fft} fft_process ar input.
Arguments chunk_size {Fft} ar.
Arguments output_chunk_size {Fft} ar.

End Audio.

(* ------------------------------------------------------------------ *)
(** ** engine.rs : [Engine::initialize] and [Engine::run_loop] *)

Module EngineM.

(** [anyhow::Result]: an error is its chain of messages, outermost first. *)
Inductive result (A : Type) :=
| Ok (a : A)
| Err (e : list string).
Arguments Ok {A} a.
Arguments Err {A} e.

(** [.context(msg)] *)
Definition context {A} (msg : string) (r : result A) : result A :=
  match r with
  | Ok a => Ok a
  | Err e => Err (msg :: e)
  end.

(** [ModelId] (models.rs) and [SpeechModel] (config.rs) *)
Inductive ModelId :=
| SileroVad | WhisperTiny | WhisperTinyEn | WhisperBase | WhisperBaseEn
| WhisperSmall | WhisperSmallEn | WhisperMedium | WhisperMediumEn
| WhisperLargeV3 | WhisperLargeV3Turbo.

Inductive SpeechModel :=
| SM_WhisperTiny | SM_WhisperTinyEn | SM_WhisperBase | SM_WhisperBaseEn
| SM_WhisperSmall | SM_WhisperSmallEn | SM_WhisperMedium | SM_WhisperMediumEn
| SM_WhisperLargeV3 | SM_WhisperLargeV3Turbo.

(** [speech_model_to_model_id] *)
Definition speech_model_to_model_id (m : SpeechModel) : ModelId :=
  match m with
  | SM_WhisperTiny => WhisperTiny
  | SM_WhisperTinyEn => WhisperTinyEn
  | SM_WhisperBase => WhisperBase
  | SM_WhisperBaseEn => WhisperBaseEn
  | SM_WhisperSmall => WhisperSmall
  | SM_WhisperSmallEn => WhisperSmallEn
  | SM_WhisperMedium => WhisperMedium
  | SM_WhisperMediumEn => WhisperMediumEn
  | SM_WhisperLargeV3 => WhisperLargeV3
  | SM_WhisperLargeV3Turbo => WhisperLargeV3Turbo
  end.

(** The part of [Config] the engine reads ([config.model]). *)
Record Config := {
  model : SpeechModel;
  languages : list string
}.

(** [InitEvent] *)
Inductive InitEvent :=
| Downloading (name : string) (bytes total : nat)
| Loading (name : string)
| Ready.

(** Observable effects of [run_loop]: starting and stopping the capture
    device, the calls of [transcribe] with their outcome, and the calls of
    the [on_transcription] callback. *)
Inductive Effect (sample : Type) :=
| StartCapture
| StopCapture
| Transcribe (audio : list sample)
| TranscriptionFailed
| OnTranscription (text : string).
Arguments StartCapture {sample}.
Arguments StopCapture {sample}.
Arguments Transcribe {sample} audio.
Arguments TranscriptionFailed {sample}.
Arguments OnTranscription {sample} text.

(** [run_loop]'s scheduler outcomes: the [cancel.cancelled()] branch of the
    [select!], or a tick with the result of [capture.try_recv()]. *)
Inductive LoopInput (sample : Type) :=
| Cancelled
| Tick (recv : option (list sample)).
Arguments Cancelled {sample}.
Arguments Tick {sample} recv.

Definition not_initialized_msg : string :=
  "Engine not initialized — call initialize() first".

(** The collaborators the engine is written against, outside the scope of
    this development: the sample type, the models, the model files, the
    capture device and rubato. *)
Class Platform := {
  (** Samples and probabilities ([f32]) and the [>=] used by the VAD. *)
  f32 : Type;
  f32_ge : f32 -> f32 -> bool;
  (** [DEFAULT_THRESHOLD] *)
  default_threshold : f32;
  (** The Silero model's recurrent state and context tail, and
      [VoiceActivityDetector::process_chunk] on it: the updated state and
      the speech probability, or an error. *)
  DetState : Type;
  process_chunk : DetState -> list f32 -> DetState * result f32;
  (** Whisper's inference state and [WhisperTranscriber::transcribe] at
      [VAD_SAMPLE_RATE]; its text is already trimmed ([result.trim()]). *)
  TState : Type;
  transcribe : TState -> list f32 -> TState * result string;
  (** The model files on disk, [ModelManager::ensure_model], the model
      constructors and the model names reported in progress events. *)
  MM : Type;
  Path : Type;
  ensure_model : MM -> ModelId -> MM * result Path;
  load_vad_model : Path -> result DetState;
  whisper_new : Path -> option string -> result TState;
  model_id_name : ModelId -> string;
  (** The capture device ([AudioCapture::start], giving its sample rate)
      and rubato ([Fft::new], [output_frames_max], one [process] call). *)
  capture_start : result nat;
  Fft : Type;
  fft_new : nat -> nat -> nat -> result Fft;
  output_frames_max : Fft -> nat;
  fft_process : Fft -> list f32 -> Fft * option (list f32)
}.

Section Engine.
Context {P : Platform}.

(** [VadConfig::default()] *)
Definition default_vad_config : Vad.VadConfig f32 :=
  {| Vad.threshold := default_threshold;
     Vad.min_speech_chunks := 2; Vad.min_silence_chunks := 8 |}.

(** [VoiceActivityDetector] *)
Record VoiceActivityDetector := {
  det : DetState;
  state_machine : Vad.VadStateMachine f32;
  vad_chunk_size : nat
}.

(** [VoiceActivityDetector::new] (chunk size 512, one of [VAD_CHUNK_SIZES]) *)
Definition vad_new (path : Path) (c : Vad.VadConfig f32) : result VoiceActivityDetector :=
  match load_vad_model path with
  | Ok d => Ok {| det := d; state_machine := Vad.new c; vad_chunk_size := 512 |}
  | Err e => Err e
  end.

(** [VoiceActivityDetector::is_speaking] *)
Definition vad_is_speaking (v : VoiceActivityDetector) : bool :=
  Vad.is_speaking (state_machine v).

(** [VoiceActivityDetector::process]: [process_chunk] and, when it
    succeeds, one step of the state machine. *)
Definition vad_process (v : VoiceActivityDetector) (audio : list f32)
  : VoiceActivityDetector * result (option Vad.VadEvent) :=
  let (d, r) := process_chunk (det v) audio in
  match r with
  | Err e =>
      ({| det := d; state_machine := state_machine v;
          vad_chunk_size := vad_chunk_size v |}, Err e)
  | Ok probability =>
      let (sm, ev) := Vad.process f32_ge (state_machine v) probability in
      ({| det := d; state_machine := sm; vad_chunk_size := vad_chunk_size v |},
       Ok ev)
  end.

(** [InitializedComponents] *)
Record InitializedComponents := {
  vad : VoiceActivityDetector;
  transcriber : TState
}.

(** [Engine] *)
Record Engine := {
  config : Config;
  model_manager : MM;
  components : option InitializedComponents
}.

(** [Engine::is_initialized] *)
Definition is_initialized (e : Engine) : bool :=
  match components e with Some _ => true | None => false end.

Definition with_model_manager (e : Engine) (mm : MM) : Engine :=
  {| config := config e; model_manager := mm; components := components e |}.

(** The transcription language: [None] for ["auto"], else the first
    configured language. *)
Definition first_language (c : Config) : option string :=
  match languages c with
  | [] => None
  | l :: _ => if String.eqb l "auto" then None else Some l
  end.

(** [Engine::initialize]: the engine afterwards, the [on_progress] calls in
    order, and the result. *)
Definition initialize (e : Engine) : Engine * list InitEvent * result unit :=
  let ev1 := [Loading "silero-vad"] in
  let (mm1, r1) := ensure_model (model_manager e) SileroVad in
  match context "Failed to ensure VAD model" r1 with
  | Err er => (with_model_manager e mm1, ev1, Err er)
  | Ok vad_model_path =>
      let whisper_model_id := speech_model_to_model_id (model (config e)) in
      let ev2 := ev1 ++ [Loading (model_id_name whisper_model_id)] in
      let (mm2, r2) := ensure_model mm1 whisper_model_id in
      match context "Failed to ensure Whisper model" r2 with
      | Err er => (with_model_manager e mm2, ev2, Err er)
      | Ok whisper_model_path =>
          match context "Failed to initialize VAD"
                  (vad_new vad_model_path default_vad_config) with
          | Err er => (with_model_manager e mm2, ev2, Err er)
          | Ok v =>
              match context "Failed to initialize Whisper"
                      (whisper_new whisper_model_path (first_language (config e))) with
              | Err er => (with_model_manager e mm2, ev2, Err er)
              | Ok t =>
                  ({| config := config e; model_manager := mm2;
                      components := Some {| vad := v; transcriber := t |} |},
                   ev2 ++ [Ready], Ok tt)
              end
          end
      end
  end.

(** [AudioResampler::new] *)
Definition resampler_new (input_rate output_rate chunk : nat)
  : result (Audio.AudioResampler Fft) :=
  match context "Failed to create resampler" (fft_new input_rate output_rate chunk) with
  | Ok r => Ok {| Audio.resampler := r; Audio.chunk_size_in := chunk;
                  Audio.chunk_size_out := output_frames_max r |}
  | Err e => Err e
  end.

(** [TARGET_SAMPLE_RATE] *)
Definition TARGET_SAMPLE_RATE : nat := 16000.

(** The local variables of [run_loop]'s loop, and the effects so far. *)
Record LoopState := {
  ls_vad : VoiceActivityDetector;
  ls_transcriber : TState;
  ls_resampler : Audio.AudioResampler Fft;
  input_buffer : list f32;
  vad_buffer : list f32;
  speech_buffer : list f32;
  log : list (Effect f32)
}.

(** The [SpeechEnd] arm: transcribe a non-empty speech buffer, call
    [on_transcription] on a non-empty text, log a failure. *)
Definition on_speech_end (t : TState) (speech : list f32)
  : TState * list (Effect f32) :=
  match speech with
  | [] => (t, [])
  | _ :: _ =>
      let (t', r) := transcribe t speech in
      match r with
      | Ok text =>
          (t', Transcribe speech ::
                 (if String.eqb text "" then [] else [OnTranscription text]))
      | Err _ => (t', [Transcribe speech; TranscriptionFailed])
      end
  end.

(** One iteration of the [while vad_buffer.len() >= vad_chunk_size] loop,
    on the drained [chunk]. *)
Definition vad_chunk_step (st : LoopState) (chunk : list f32) : LoopState :=
  let sb := if vad_is_speaking (ls_vad st)
            then speech_buffer st ++ chunk else speech_buffer st in
  let (v', r) := vad_process (ls_vad st) chunk in
  match r with
  | Ok (Some Vad.SpeechStart) =>
      {| ls_vad := v'; ls_transcriber := ls_transcriber st;
         ls_resampler := ls_resampler st; input_buffer := input_buffer st;
         vad_buffer := vad_buffer st; speech_buffer := [] ++ chunk;
         log := log st |}
  | Ok (Some Vad.SpeechEnd) =>
      let (t', effs) := on_speech_end (ls_transcriber st) sb in
      {| ls_vad := v'; ls_transcriber := t';
         ls_resampler := ls_resampler st; input_buffer := input_buffer st;
         vad_buffer := vad_buffer st; speech_buffer := [];
         log := log st ++ effs |}
  | Ok None | Err _ =>
      {| ls_vad := v'; ls_transcriber := ls_transcriber st;
         ls_resampler := ls_resampler st; input_buffer := input_buffer st;
         vad_buffer := vad_buffer st; speech_buffer := sb;
         log := log st |}
  end.

(** The [while input_buffer.len() >= resampler_chunk] loop. The fuel is the
    buffer length, enough for a positive chunk size (1024 here); with a
    zero chunk size the Rust loop would not terminate. *)
Fixpoint drain_resampler (fuel k : nat) (rs : Audio.AudioResampler Fft)
    (vb ib : list f32) : Audio.AudioResampler Fft * list f32 * list f32 :=
  match fuel with
  | 0 => (rs, vb, ib)
  | S f =>
      if k <=? length ib then
        let (rs', r) := Audio.process fft_process rs (firstn k ib) in
        let vb' := match r with Some out => vb ++ out | None => vb end in
        drain_resampler f k rs' vb' (skipn k ib)
      else (rs, vb, ib)
  end.

(** The [while vad_buffer.len() >= vad_chunk_size] loop (fuel as above;
    the VAD chunk size is one of 512, 1024, 1536). *)
Fixpoint drain_vad (fuel k : nat) (st : LoopState) : LoopState :=
  match fuel with
  | 0 => st
  | S f =>
      if k <=? length (vad_buffer st) then
        let chunk := firstn k (vad_buffer st) in
        let st1 := {| ls_vad := ls_vad st; ls_transcriber := ls_transcriber st;
                      ls_resampler := ls_resampler st;
                      input_buffer := input_buffer st;
                      vad_buffer := skipn k (vad_buffer st);
                      speech_buffer := speech_buffer st; log := log st |} in
        drain_vad f k (vad_chunk_step st1 chunk)
      else st
  end.

(** The tick branch of the [select!]. *)
Definition tick (resampler_chunk vad_chunk : nat) (st : LoopState)
    (recv : option (list f32)) : LoopState :=
  match recv with
  | None => st
  | Some samples =>
      let ib := input_buffer st ++ samples in
      let '(rs, vb, ib') :=
        drain_resampler (length ib) resampler_chunk (ls_resampler st) (vad_buffer st) ib in
      drain_vad (length vb) vad_chunk
        {| ls_vad := ls_vad st; ls_transcriber := ls_transcriber st;
           ls_resampler := rs; input_buffer := ib'; vad_buffer := vb;
           speech_buffer := speech_buffer st; log := log st |}
  end.

(** The [loop { select! ... }]: the state reached and whether the loop has
    been left (by [break]). *)
Fixpoint event_loop (resampler_chunk vad_chunk : nat) (st : LoopState)
    (inputs : list (LoopInput f32)) : LoopState * bool :=
  match inputs with
  | [] => (st, false)
  | Cancelled :: _ => (st, true)
  | Tick r :: rest =>
      event_loop resampler_chunk vad_chunk (tick resampler_chunk vad_chunk st r) rest
  end.

(** [Engine::run_loop] on a schedule of [select!] outcomes: the engine
    afterwards, the effects, and the returned result ([None] while the loop
    is still running at the end of the schedule). *)
Definition run_loop (e : Engine) (inputs : list (LoopInput f32))
  : Engine * list (Effect f32) * option (result unit) :=
  match components e with
  | None => (e, [], Some (Err [not_initialized_msg]))
  | Some comps =>
      match context "Failed to start audio capture" capture_start with
      | Err er => (e, [StartCapture], Some (Err er))
      | Ok sample_rate =>
          match context "Failed to create resampler"
                  (resampler_new sample_rate TARGET_SAMPLE_RATE 1024) with
          | Err er => (e, [StartCapture], Some (Err er))
          | Ok rs =>
              let st0 := {| ls_vad := vad comps; ls_transcriber := transcriber comps;
                            ls_resampler := rs; input_buffer := []; vad_buffer := [];
                            speech_buffer := []; log := [StartCapture] |} in
              let (st, exited) :=
                event_loop (Audio.chunk_size rs) (vad_chunk_size (vad comps)) st0 inputs in
              let e' := {| config := config e; model_manager := model_manager e;
                           components := Some {| vad := ls_vad st;
                                                 transcriber := ls_transcriber st |} |} in
              if exited then (e', log st ++ [StopCapture], Some (Ok tt))
              else (e', log st, None)
          end
      end
  end.

(** The speech-buffer invariant of the loop: while the VAD is not
    speaking, the speech buffer is empty. *)
Definition buffer_inv (st : LoopState) : Prop :=
  vad_is_speaking (ls_vad st) = false -> speech_buffer st = [].

End Engine.

(** The [cancel.cancelled()] outcome of the [select!]. *)
Definition is_cancelled {A} (i : LoopInput A) : bool :=
  match i with Cancelled => true | Tick _ => false end.

End EngineM.

(* ------------------------------------------------------------------ *)
(** ** controller.rs : [Controller] *)

Module Ctrl.

(** [ControllerState] *)
Inductive ControllerState := Initializing | Stopped | Listening | Paused.

(** Observable effects of the controller: broadcast events, cancelling the
    engine task, and the one-shot shutdown signal. *)
Inductive CtrlEffect :=
| BroadcastState (s : ControllerState)
| BroadcastError (message : string)
| SpawnTask
| CancelTask
| SendShutdown.

Section Controller.

(** The engine, as far as the controller looks at it, and how joining the
    cancelled [run_engine_task] ends: [Some] the engine it hands back, or
    [None] when the task panicked. *)
Variable Engine : Type.
Variable is_initialized : Engine -> bool.
Variable join_task : Engine -> option Engine.

(** [EngineHandle]: the engine moved into the spawned task. *)
Record EngineHandle := { task_engine : Engine }.

(** [Controller]; [shutdown_tx] records whether the [Option<oneshot::Sender>]
    still holds the sender. *)
Record Controller := {
  state : ControllerState;
  shutdown_tx : bool;
  engine : option Engine;
  engine_handle : option EngineHandle;
  log : list CtrlEffect
}.

(** [Controller::new] *)
Definition new (en : Engine) : Controller :=
  {| state := Initializing; shutdown_tx := true; engine := Some en;
     engine_handle := None; log := [] |}.

(** [Controller::start_listening] *)
Definition start_listening (c : Controller) : Controller * EngineM.result unit :=
  match state c with
  | Paused =>
      match engine c with
      | None => (c, EngineM.Err [("Engine not available")%string])
      | Some en =>
          if negb (is_initialized en) then
            (* put it back *)
            ({| state := state c; shutdown_tx := shutdown_tx c; engine := Some en;
                engine_handle := engine_handle c; log := log c |},
             EngineM.Err [("Engine not initialized")%string])
          else
            ({| state := Listening; shutdown_tx := shutdown_tx c; engine := None;
                engine_handle := Some {| task_engine := en |};
                log := log c ++ [SpawnTask; BroadcastState Listening] |},
             EngineM.Ok tt)
      end
  | Listening => (c, EngineM.Ok tt)
  | Stopped => (c, EngineM.Err [("Daemon is stopped")%string])
  | Initializing => (c, EngineM.Err [("Daemon is still initializing")%string])
  end.

(** [Controller::stop_listening] *)
Definition stop_listening (c : Controller) : Controller * EngineM.result unit :=
  match state c with
  | Listening =>
      let '(en, effs) :=
        match engine_handle c with
        | None => (engine c, [])
        | Some h =>
            match join_task (task_engine h) with
            | Some en' => (Some en', [CancelTask])
            | None => (engine c, [CancelTask; BroadcastError "Engine task panicked"%string])
            end
        end in
      ({| state := Paused; shutdown_tx := shutdown_tx c; engine := en;
          engine_handle := None;
          log := log c ++ effs ++ [BroadcastState Paused] |}, EngineM.Ok tt)
  | Paused => (c, EngineM.Ok tt)
  | Stopped => (c, EngineM.Err [("Daemon is stopped")%string])
  | Initializing => (c, EngineM.Err [("Daemon is still initializing")%string])
  end.

(** [Controller::shutdown] *)
Definition shutdown (c : Controller) : Controller :=
  let c1 := fst (stop_listening c) in
  let c2 := {| state := Stopped; shutdown_tx := shutdown_tx c1; engine := engine c1;
               engine_handle := engine_handle c1;
               log := log c1 ++ [BroadcastState Stopped] |} in
  if shutdown_tx c2 then
    {| state := state c2; shutdown_tx := false; engine := engine c2;
       engine_handle := engine_handle c2; log := log c2 ++ [SendShutdown] |}
  else c2.

End Controller.

Arguments state {Engine} _.
Arguments shutdown_tx {Engine} _.
Arguments engine {Engine} _.
Arguments engine_handle {Engine} _.
Arguments log {Engine} _.
Arguments new {Engine} en.
Arguments start_listening {Engine} is_initialized c.
Arguments stop_listening {Engine} join_task c.
Arguments shutdown {Engine} join_task c.

(** Number of shutdown signals sent in an effect log. *)
Definition count_shutdown_signals (l : list CtrlEffect) : nat :=
  length (filter (fun x => match x with SendShutdown => true | _ => false end) l).

End Ctrl.

(* ------------------------------------------------------------------ *)
(** ** audio.rs : channel down-mixing, [AudioBuffer::append], [try_recv] *)

Module AudioExt.

(** A Rust call that returns, or panics. *)
Inductive outcome (A : Type) :=
| Returns (a : A)
| Panics.
Arguments Returns {A} a.
Arguments Panics {A}.

Section Mono.

(** [f32] arithmetic as the down-mixing uses it: [+], [/], the start of
    [Iterator::sum], the constant [2.0] and the cast [channels as f32]. *)
Variable f32 : Type.
Variable f32_add : f32 -> f32 -> f32.
Variable f32_div : f32 -> f32 -> f32.
Variable sum_start : f32.
Variable two : f32.
Variable f32_of_usize : nat -> f32.

(** [stereo_to_mono] *)
Definition stereo_to_mono (stereo : list f32) : list f32 :=
  map (fun pair => f32_div (f32_add (nth 0 pair sum_start) (nth 1 pair sum_start)) two)
      (Audio.chunks_exact 2 stereo).

(** [to_mono]; [chunks_exact(0)] panics. *)
Definition to_mono (samples : list f32) (channels : nat) : outcome (list f32) :=
  if channels =? 1 then Returns samples
  else if channels =? 0 then Panics
  else Returns (map (fun frame => f32_div (fold_left f32_add frame sum_start)
                                          (f32_of_usize channels))
                    (Audio.chunks_exact channels samples)).

(** The receiving side of [AudioCapture]: the messages queued in the
    channel by the stream callback, and the device's channel count. *)
Record Capture := {
  queue : list (list f32);
  channels : nat
}.

(** [AudioCapture::try_recv]: drain every queued message, [None] when no
    sample came, else the down-mixed samples. *)
Definition try_recv (c : Capture) : Capture * outcome (option (list f32)) :=
  let all_samples := concat (queue c) in
  let c' := {| queue := []; channels := channels c |} in
  match all_samples with
  | [] => (c', Returns None)
  | _ :: _ =>
      match to_mono all_samples (channels c) with
      | Returns m => (c', Returns (Some m))
      | Panics => (c', Panics)
      end
  end.

End Mono.

Arguments to_mono {f32} f32_add f32_div sum_start f32_of_usize samples channels.
Arguments stereo_to_mono {f32} f32_add f32_div sum_start two stereo.
Arguments Capture f32 : clear implicits.
Arguments try_recv {f32} f32_add f32_div sum_start f32_of_usize c.


(** [AudioBuffer::clear] *)
Definition clear (b : Audio.AudioBuffer) : Audio.AudioBuffer :=
  {| Audio.samples := []; Audio.sample_rate := Audio.sample_rate b |}.

End AudioExt.

(* ------------------------------------------------------------------ *)
(** ** vad.rs : [VoiceActivityDetector] *)

Module VadDetector.
Import EngineM.

(** [LSTM_HIDDEN_SIZE], [CONTEXT_SIZE_16K], [VAD_CHUNK_SIZES] *)
Definition LSTM_HIDDEN_SIZE : nat := 128.
Definition CONTEXT_SIZE_16K : nat := 64.
Definition VAD_CHUNK_SIZES : list nat := [512; 1024; 1536].

Section Detector.

(** Samples and probabilities, [0.0], and the ONNX runtime: loading a
    session from a model file (the builder, thread and file steps with
    their contexts), running it on the context-prefixed chunk
    and the LSTM state, and extracting the ["output"] and ["stateN"]
    tensors' data. The [anyhow::bail!] messages are formatted with the
    offending sizes; [shape_error_msg] is ndarray's shape error. *)
Variable f32 : Type.
Variable f32_zero : f32.
Variable Path : Type.
Variable Session : Type.
Variable Outputs : Type.
Variable load_session : Path -> result Session.
Variable session_run : Session -> list f32 -> list f32 -> result Outputs.
Variable extract_output : Outputs -> result (list f32).
Variable extract_state : Outputs -> result (list f32).
Variable invalid_chunk_size_msg : nat -> string.
Variable chunk_mismatch_msg : nat -> nat -> string.
Variable shape_error_msg : string.

(** [VoiceActivityDetector]; the LSTM state of shape (2, 1, 128) is kept as
    its 256 values in order. *)
Record VoiceActivityDetector := {
  session : Session;
  state : list f32;
  context : list f32;
  state_machine : Vad.VadStateMachine f32;
  chunk_size : nat
}.

(** [VoiceActivityDetector::with_chunk_size] *)
Definition with_chunk_size (model_path : Path) (config : Vad.VadConfig f32)
    (chunk : nat) : result VoiceActivityDetector :=
  if negb (existsb (Nat.eqb chunk) VAD_CHUNK_SIZES) then
    Err [invalid_chunk_size_msg chunk]
  else
    match load_session model_path with
    | Err e => Err e
    | Ok s =>
        Ok {| session := s; state := repeat f32_zero (2 * 1 * LSTM_HIDDEN_SIZE);
              context := repeat f32_zero CONTEXT_SIZE_16K;
              state_machine := Vad.new config; chunk_size := chunk |}
    end.

(** [VoiceActivityDetector::new] *)
Definition new (model_path : Path) (config : Vad.VadConfig f32) : result VoiceActivityDetector :=
  with_chunk_size model_path config 512.

Definition with_context (d : VoiceActivityDetector) (ctx : list f32) : VoiceActivityDetector :=
  {| session := session d; state := state d; context := ctx;
     state_machine := state_machine d; chunk_size := chunk_size d |}.

Definition with_state (d : VoiceActivityDetector) (st : list f32) : VoiceActivityDetector :=
  {| session := session d; state := st; context := context d;
     state_machine := state_machine d; chunk_size := chunk_size d |}.

(** [VoiceActivityDetector::process_chunk]. [audio[audio.len() - 64..]]
    is reached only with [audio.len() = chunk_size], one of
    [VAD_CHUNK_SIZES]. *)
Definition process_chunk (d : VoiceActivityDetector) (audio : list f32)
  : VoiceActivityDetector * result f32 :=
  if negb (length audio =? chunk_size d) then
    (d, Err [chunk_mismatch_msg (length audio) (chunk_size d)])
  else
    let input_with_context := context d ++ audio in
    (* Array2::from_shape_vec((1, chunk_size + CONTEXT_SIZE_16K), ...) *)
    if negb (length input_with_context =? chunk_size d + CONTEXT_SIZE_16K) then
      (d, Err ["Failed to create audio array"%string; shape_error_msg])
    else
      match session_run (session d) input_with_context (state d) with
      | Err e => (d, Err ("VAD inference failed"%string :: e))
      | Ok outputs =>
          let d1 := with_context d (skipn (length audio - CONTEXT_SIZE_16K) audio) in
          match extract_output outputs with
          | Err e => (d1, Err ("Failed to extract output tensor"%string :: e))
          | Ok output_data =>
              let probability := match output_data with p :: _ => p | [] => f32_zero end in
              match extract_state outputs with
              | Err e => (d1, Err ("Failed to extract state tensor"%string :: e))
              | Ok state_data =>
                  if length state_data =? 2 * 1 * LSTM_HIDDEN_SIZE
                  then (with_state d1 state_data, Ok probability)
                  else (d1, Err ["Failed to reshape state"%string; shape_error_msg])
              end
          end
      end.

(** [VoiceActivityDetector::reset] *)
Definition reset (d : VoiceActivityDetector) : VoiceActivityDetector :=
  {| session := session d; state := repeat f32_zero (2 * 1 * LSTM_HIDDEN_SIZE);
     context := repeat f32_zero CONTEXT_SIZE_16K;
     state_machine := Vad.reset (state_machine d); chunk_size := chunk_size d |}.

(** The shape invariant of a detector. *)
Definition well_shaped (d : VoiceActivityDetector) : Prop :=
  In (chunk_size d) VAD_CHUNK_SIZES /\
  length (state d) = 2 * 1 * LSTM_HIDDEN_SIZE /\
  length (context d) = CONTEXT_SIZE_16K.

End Detector.

Arguments session {f32 Session} v.
Arguments state {f32 Session} v.
Arguments context {f32 Session} v.
Arguments state_machine {f32 Session} v.
Arguments chunk_size {f32 Session} v.
Arguments well_shaped {f32 Session} d.

End VadDetector.

(* ------------------------------------------------------------------ *)
(** ** transcribe/whisper.rs : the sample-rate check of [transcribe] *)

Module WhisperM.
Import EngineM.

Section Whisper.

(** Whisper's state, [WhisperState::full] on the audio with the language
    setting, the segments it leaves ([Some] text when [to_str_lossy]
    succeeds), [str::trim], and the [bail!] message formatted with the rate. *)
Variable f32 : Type.
Variable WState : Type.
Variable full : WState -> option string -> list f32 -> WState * result unit.
Variable segments : WState -> list (option string).
Variable trim : string -> string.
Variable rate_msg : nat -> string.

(** [WhisperTranscriber] *)
Record WhisperTranscriber := {
  wstate : WState;
  language : option string
}.

(** [Transcriber::transcribe] for [WhisperTranscriber] *)
Definition transcribe (t : WhisperTranscriber) (audio : list f32) (sample_rate : nat)
  : WhisperTranscriber * result string :=
  if negb (sample_rate =? 16000) then (t, Err [rate_msg sample_rate])
  else
    let (ws, r) := full (wstate t) (language t) audio in
    let t' := {| wstate := ws; language := language t |} in
    match r with
    | Err e => (t', Err ("Whisper inference failed"%string :: e))
    | Ok _ =>
        let result := fold_left (fun acc seg =>
                        match seg with Some text => (acc ++ text)%string | None => acc end)
                        (segments ws) ""%string in
        (t', Ok (trim result))
    end.

End Whisper.

End WhisperM.

(* ------------------------------------------------------------------ *)
(** ** controller.rs : [mark_ready] and the language settings *)

Module CtrlExt.
Import Ctrl.

(** [InitialState] (the controller only compares it with [Listening]). *)
Inductive InitialState := InitialPaused | InitialListening.

Section Controller.
Variable Engine : Type.
Variable is_initialized : Engine -> bool.

(** [Controller::mark_ready]; the error of the automatic
    [start_listening] is only logged. *)
Definition mark_ready (initial_state : InitialState) (c : Controller Engine)
  : Controller Engine :=
  match state c with
  | Initializing =>
      let c1 := {| state := Paused; shutdown_tx := shutdown_tx c; engine := engine c;
                   engine_handle := engine_handle c;
                   log := log c ++ [BroadcastState Paused] |} in
      match initial_state with
      | InitialListening => fst (start_listening is_initialized c1)
      | InitialPaused => c1
      end
  | _ => c
  end.

End Controller.

(** The language state the controller keeps: the in-memory configuration's
    [model.language] and [gui.languages], and the [SharedLanguage] mutex
    ([poisoned] when a holder panicked). *)
Record LanguageState := {
  cfg_language : string;
  gui_languages : list string;
  poisoned : bool;
  shared_language : option string
}.

(** [Controller::set_language]; [save] is [Config::save] on the updated
    configuration. *)
Definition set_language (save : LanguageState -> EngineM.result unit)
    (ls : LanguageState) (language : string) : LanguageState * EngineM.result unit :=
  let lang := if String.eqb language "auto" then None else Some language in
  let ls1 := {| cfg_language := language; gui_languages := gui_languages ls;
                poisoned := poisoned ls; shared_language := shared_language ls |} in
  match save ls1 with
  | EngineM.Err e =>
      (ls1, EngineM.Err [("Failed to save config: " ++ match e with m :: _ => m | [] => "" end)%string])
  | EngineM.Ok _ =>
      if poisoned ls1 then
        (ls1, EngineM.Err ["Failed to lock shared language: poisoned lock: another task failed inside"%string])
      else
        ({| cfg_language := language; gui_languages := gui_languages ls;
            poisoned := false; shared_language := lang |}, EngineM.Ok tt)
  end.

(** [Controller::get_language_info] *)
Definition get_language_info (ls : LanguageState) : string * list string :=
  let active := if poisoned ls then "auto"%string
                else match shared_language ls with
                     | Some lang => lang
                     | None => "auto"%string
                     end in
  (active, gui_languages ls).

End CtrlExt.

(* ------------------------------------------------------------------ *)
(** ** Vocabulary for the event sequences of the VAD state machine *)

Module VadExt.

(** The events returned by a sequence of [process] calls, [None]s left out. *)
Definition vad_events (evs : list (option Vad.VadEvent)) : list Vad.VadEvent :=
  flat_map (fun o => match o with Some e => [e] | None => [] end) evs.

(** [evs] alternates [SpeechStart] and [SpeechEnd], the first one being
    [SpeechStart] when not [speaking] and [SpeechEnd] when [speaking]. *)
Fixpoint alternates (speaking : bool) (evs : list Vad.VadEvent) : bool :=
  match evs with
  | [] => true
  | Vad.SpeechStart :: rest => negb speaking && alternates true rest
  | Vad.SpeechEnd :: rest => speaking && alternates false rest
  end.

End VadExt.

(* ------------------------------------------------------------------ *)
(** ** Concrete instances, for evaluating the model on small inputs *)

Module Concrete.

(** The default VAD configuration, probabilities in hundredths. *)
Definition cfg_default_Z : Vad.VadConfig Z :=
  {| Vad.threshold := 50%Z; Vad.min_speech_chunks := 2; Vad.min_silence_chunks := 8 |}.

(** A platform where samples are integers, the VAD model returns the
    probabilities of a script in turn (an error once it is exhausted): one
    silence chunk, three speech chunks and eight silence chunks; the
    transcriber answers "words" (and "" for a single sample), model files are always present, the device runs
    at 16 kHz and the resampler is the identity. *)
#[export] Instance script_platform : EngineM.Platform := {|
  EngineM.f32 := Z;
  EngineM.f32_ge := Z.geb;
  EngineM.default_threshold := 50%Z;
  EngineM.DetState := list Z;
  EngineM.process_chunk := fun d _ =>
    match d with
    | p :: rest => (rest, EngineM.Ok p)
    | [] => ([], EngineM.Err ["VAD inference failed"%string])
    end;
  EngineM.TState := nat;
  EngineM.transcribe := fun t audio =>
    (S t, EngineM.Ok (match audio with [_] => ""%string | _ => "words"%string end));
  EngineM.MM := nat;
  EngineM.Path := unit;
  EngineM.ensure_model := fun mm _ => (S mm, EngineM.Ok tt);
  EngineM.load_vad_model := fun _ =>
    EngineM.Ok [20; 80; 90; 70; 10; 10; 10; 10; 10; 10; 10; 10]%Z;
  EngineM.whisper_new := fun _ _ => EngineM.Ok 0;
  EngineM.model_id_name := fun _ => "whisper"%string;
  EngineM.capture_start := EngineM.Ok 16000;
  EngineM.Fft := unit;
  EngineM.fft_new := fun _ _ _ => EngineM.Ok tt;
  EngineM.output_frames_max := fun _ => 1024;
  EngineM.fft_process := fun r chunk => (r, Some chunk)
|}.

(** A fresh engine with the default model and automatic language. *)
Definition engine0 : EngineM.Engine :=
  {| EngineM.config := {| EngineM.model := EngineM.SM_WhisperBase;
                          EngineM.languages := ["auto"%string] |};
     EngineM.model_manager := 0; EngineM.components := None |}.

(** The same engine after [initialize]. *)
Definition engine1 : EngineM.Engine := fst (fst (EngineM.initialize engine0)).

(** One tick delivering 6144 samples (six resampler chunks, twelve VAD
    chunks), then cancellation. *)
Definition capture_schedule : list (EngineM.LoopInput Z) :=
  [EngineM.Tick (Some (repeat 0%Z 6144)); EngineM.Cancelled].

Definition resampler0 : Audio.AudioResampler unit :=
  {| Audio.resampler := tt; Audio.chunk_size_in := 1024; Audio.chunk_size_out := 1024 |}.

(** A loop state whose VAD (chunk size 2) is silent and will read 0.8. *)
Definition loop_state_silent : EngineM.LoopState :=
  {| EngineM.ls_vad := {| EngineM.det := [80%Z];
                          EngineM.state_machine := Vad.new cfg_default_Z;
                          EngineM.vad_chunk_size := 2 |};
     EngineM.ls_transcriber := 0; EngineM.ls_resampler := resampler0;
     EngineM.input_buffer := []; EngineM.vad_buffer := [];
     EngineM.speech_buffer := []; EngineM.log := [EngineM.StartCapture] |}.

(** A loop state whose VAD is speaking after seven silence chunks and will
    read 0.1, with one sample buffered. *)
Definition loop_state_speaking : EngineM.LoopState :=
  {| EngineM.ls_vad := {| EngineM.det := [10%Z];
                          EngineM.state_machine :=
                            {| Vad.config := cfg_default_Z; Vad.is_speaking := true;
                               Vad.speech_chunk_count := 0;
                               Vad.silence_chunk_count := 7 |};
                          EngineM.vad_chunk_size := 2 |};
     EngineM.ls_transcriber := 0; EngineM.ls_resampler := resampler0;
     EngineM.input_buffer := []; EngineM.vad_buffer := [];
     EngineM.speech_buffer := [5%Z]; EngineM.log := [EngineM.StartCapture] |}.

(** A paused controller holding an engine that is not initialized (engines
    reduced to their [is_initialized] flag). *)
Definition paused_controller : Ctrl.Controller bool :=
  {| Ctrl.state := Ctrl.Paused; Ctrl.shutdown_tx := true;
     Ctrl.engine := Some false; Ctrl.engine_handle := None; Ctrl.log := [] |}.

End Concrete.

(* ------------------------------------------------------------------ *)
(** ** More concrete instances *)

Module ConcreteExt.

(** The identity resampler on 4-sample chunks. *)
Definition fft_identity (r : unit) (chunk : list nat) : unit * option (list nat) :=
  (r, Some chunk).

Definition resampler4 : Audio.AudioResampler unit :=
  {| Audio.resampler := tt; Audio.chunk_size_in := 4; Audio.chunk_size_out := 4 |}.

(** A Silero session on integer samples whose run answers probability 90
    and hands the LSTM state back; its outputs are the two tensors. *)
Definition session_echo (_ : unit) (_ : list nat) (state : list nat)
  : EngineM.result (list nat * list nat) :=
  EngineM.Ok ([90], state).

Definition output_tensor (o : list nat * list nat) : EngineM.result (list nat) :=
  EngineM.Ok (fst o).

Definition state_tensor (o : list nat * list nat) : EngineM.result (list nat) :=
  EngineM.Ok (snd o).

Definition missing_tensor (_ : list nat * list nat) : EngineM.result (list nat) :=
  EngineM.Err ["output tensor not found"%string].

Definition mismatch_msg (_ _ : nat) : string := "Audio chunk size mismatch".

Definition detector512 : VadDetector.VoiceActivityDetector nat unit :=
  {| VadDetector.session := tt; VadDetector.state := repeat 0 256;
     VadDetector.context := repeat 0 64;
     VadDetector.state_machine :=
       Vad.new {| Vad.threshold := 50; Vad.min_speech_chunks := 2;
                  Vad.min_silence_chunks := 8 |};
     VadDetector.chunk_size := 512 |}.



(** Controllers over engines reduced to their [is_initialized] flag: a
    paused one holding an initialized engine, and a listening one whose
    task holds it. *)
Definition paused_ready_controller : Ctrl.Controller bool :=
  {| Ctrl.state := Ctrl.Paused; Ctrl.shutdown_tx := true;
     Ctrl.engine := Some true; Ctrl.engine_handle := None; Ctrl.log := [] |}.

Definition listening_controller : Ctrl.Controller bool :=
  {| Ctrl.state := Ctrl.Listening; Ctrl.shutdown_tx := true;
     Ctrl.engine := None; Ctrl.engine_handle := Some {| Ctrl.task_engine := true |};
     Ctrl.log := [Ctrl.SpawnTask; Ctrl.BroadcastState Ctrl.Listening] |}.

End ConcreteExt.

(* ================================================================== *)
(** * Proofs *)

(* ------------------------------------------------------------------ *)
(** ** The VAD state machine *)

Module VadProofs.
Import Vad.

(** The end-to-end scenario of the spec, probabilities in hundredths:
    0.2, 0.8, 0.9, 0.7, 0.2, 0.1 with [min_speech_chunks = 2] and
    [min_silence_chunks = 2]. *)
Example scenario_events :
  snd (process_all Z.geb (new {| threshold := 50%Z; min_speech_chunks := 2;
                                 min_silence_chunks := 2 |})
         [20; 80; 90; 70; 20; 10]%Z)
  = [None; None; Some SpeechStart; None; None; Some SpeechEnd].
Proof. reflexivity. Qed.

Section Props.
Variable f32 : Type.
Variable ge : f32 -> f32 -> bool.

Lemma run_length_snoc {A} (f : A -> bool) l x :
  run_length f (l ++ [x]) = if f x then S (run_length f l) else 0.
Proof. unfold run_length. rewrite rev_app_distr. simpl. destruct (f x); reflexivity. Qed.

Lemma run_length_le {A} (f : A -> bool) l : run_length f l <= length l.
Proof.
  unfold run_length. rewrite <- (length_rev l). generalize (rev l) as r.
  induction r as [|x r IH]; simpl; [lia|]. destruct (f x); simpl; lia.
Qed.

Lemma state_after_snoc sm ps p :
  state_after ge sm (ps ++ [p]) = fst (process ge (state_after ge sm ps) p).
Proof. unfold state_after. rewrite fold_left_app. reflexivity. Qed.

Lemma process_config sm p : config (fst (process ge sm p)) = config sm.
Proof.
  unfold process. destruct (ge p _), (is_speaking sm); simpl;
    repeat match goal with |- context [if ?b then _ else _] => destruct b end;
    reflexivity.
Qed.

Lemma state_after_config sm ps : config (state_after ge sm ps) = config sm.
Proof.
  induction ps as [|p ps IH] using rev_ind; [reflexivity|].
  rewrite state_after_snoc, process_config. exact IH.
Qed.

(** The counters are the run lengths of the history, and a pending run
    never exceeds its trigger: the reachable-state invariant. *)
Lemma reachable_invariant cfg ps :
  let sm := state_after ge (new cfg) ps in
  speech_chunk_count sm = run_length (is_speech_chunk ge cfg) ps /\
  silence_chunk_count sm = run_length (fun q => negb (is_speech_chunk ge cfg q)) ps /\
  (is_speaking sm = false ->
     speech_chunk_count sm = 0 \/ speech_chunk_count sm < min_speech_chunks cfg) /\
  (is_speaking sm = true ->
     silence_chunk_count sm = 0 \/ silence_chunk_count sm < min_silence_chunks cfg).
Proof.
  induction ps as [|p ps IH] using rev_ind.
  - cbn. repeat split; intros; auto.
  - cbv zeta in *. rewrite state_after_snoc, !run_length_snoc.
    pose proof (state_after_config (new cfg) ps) as Hc. simpl in Hc.
    destruct (state_after ge (new cfg) ps) as [c sp sc lc]. simpl in *. subst c.
    destruct IH as (H1 & H2 & H3 & H4).
    unfold process, is_speech_chunk in *; simpl in *.
    destruct (ge p (threshold cfg)) eqn:Hp; simpl.
    + destruct sp; simpl.
      * repeat split; intros; try discriminate; auto.
      * destruct (min_speech_chunks cfg <=? S sc) eqn:Hm; simpl.
        -- repeat split; intros; try discriminate; auto.
        -- apply Nat.leb_gt in Hm. repeat split; intros; try discriminate; auto.
    + destruct sp; simpl.
      * destruct (min_silence_chunks cfg <=? S lc) eqn:Hm; simpl.
        -- repeat split; intros; try discriminate; auto.
        -- apply Nat.leb_gt in Hm. repeat split; intros; try discriminate; auto.
      * repeat split; intros; try discriminate; auto.
Qed.

Lemma process_all_app sm xs ys :
  process_all ge sm (xs ++ ys) =
  (fst (process_all ge (fst (process_all ge sm xs)) ys),
   snd (process_all ge sm xs) ++ snd (process_all ge (fst (process_all ge sm xs)) ys)).
Proof.
  revert sm. induction xs as [|x xs IH]; intros sm; simpl.
  - destruct (process_all ge sm ys); reflexivity.
  - destruct (process ge sm x) as [sm1 e]. rewrite IH.
    destruct (process_all ge sm1 xs) as [sm2 es]. simpl.
    destruct (process_all ge sm2 ys); reflexivity.
Qed.

(** A run of speech chunks too short to reach [min_speech_chunks], from a
    silent state, returns no event. *)
Lemma short_speech_run_silent cfg xs sm :
  config sm = cfg -> is_speaking sm = false ->
  forallb (is_speech_chunk ge cfg) xs = true ->
  xs = [] \/ speech_chunk_count sm + length xs < min_speech_chunks cfg ->
  Forall (eq None) (snd (process_all ge sm xs)) /\
  is_speaking (fst (process_all ge sm xs)) = false /\
  config (fst (process_all ge sm xs)) = cfg.
Proof.
  revert sm. induction xs as [|x xs IH]; intros sm Hc Hs Hall Hlen; simpl.
  - auto.
  - simpl in Hall. apply andb_true_iff in Hall as [Hx Hall].
    destruct Hlen as [Hlen|Hlen]; [discriminate|]. simpl in Hlen.
    destruct sm as [c sp sc lc]; simpl in *; subst c sp.
    unfold process, is_speech_chunk in *; simpl. rewrite Hx. simpl.
    destruct (min_speech_chunks cfg <=? S sc) eqn:Hm;
      [apply Nat.leb_le in Hm; lia|].
    edestruct (IH {| config := cfg; is_speaking := false;
                     speech_chunk_count := S sc; silence_chunk_count := 0 |})
      as (H1 & H2 & H3); simpl; auto; [right; lia|].
    destruct (process_all ge _ xs) as [sm' es] eqn:E. simpl in *.
    auto.
Qed.

(** [min_speech_chunks - 1] speech chunks, one silence chunk and again
    [min_speech_chunks - 1] speech chunks, from a fresh state, never
    produce [SpeechStart]. *)
Lemma interrupted_run_no_start cfg xs q ys :
  length xs = min_speech_chunks cfg - 1 ->
  length ys = min_speech_chunks cfg - 1 ->
  forallb (is_speech_chunk ge cfg) xs = true ->
  is_speech_chunk ge cfg q = false ->
  forallb (is_speech_chunk ge cfg) ys = true ->
  ~ In (Some SpeechStart) (snd (process_all ge (new cfg) (xs ++ q :: ys))).
Proof.
  intros Lx Ly Hx Hq Hy.
  rewrite process_all_app. simpl.
  edestruct (short_speech_run_silent cfg xs (new cfg)) as (F1 & S1 & C1);
    simpl; auto.
  { destruct xs; [left; reflexivity|right; simpl in *; lia]. }
  destruct (process_all ge (new cfg) xs) as [sm1 es1]. simpl in *.
  destruct sm1 as [c sp sc lc]; simpl in *; subst c sp.
  unfold is_speech_chunk in *. unfold process; simpl. rewrite Hq. simpl.
  edestruct (short_speech_run_silent cfg ys
               {| config := cfg; is_speaking := false;
                  speech_chunk_count := 0; silence_chunk_count := S lc |})
    as (F2 & _ & _); simpl; auto.
  { destruct ys; [left; reflexivity|right; simpl in *; lia]. }
  destruct (process_all ge _ ys) as [sm2 es2]. simpl in *.
  intros Hin. apply in_app_or in Hin as [Hin|[Hin|Hin]].
  - rewrite Forall_forall in F1. specialize (F1 _ Hin). discriminate.
  - discriminate.
  - rewrite Forall_forall in F2. specialize (F2 _ Hin). discriminate.
Qed.

(** C1: on every call of [process] in a sequence fed to a fresh
    [VadStateMachine], a chunk is speech iff [probability >= threshold];
    [SpeechStart] is returned exactly when, while not speaking, the run of
    consecutive speech chunks ending at this chunk reaches
    [min_speech_chunks] (the run is then exactly [min_speech_chunks], or 1
    when that is 0, so never later and never before); [SpeechEnd] likewise
    for silence runs while speaking; every other call returns no event; and
    [min_speech_chunks - 1] speech chunks, one silence chunk and
    [min_speech_chunks - 1] speech chunks never produce [SpeechStart]. *)
Theorem vad_events_exact (cfg : VadConfig f32) (ps : list f32) (p : f32) :
  let sm := state_after ge (new cfg) ps in
  let ev := snd (process ge sm p) in
  let speech := is_speech_chunk ge cfg in
  let run := run_length speech (ps ++ [p]) in
  let silrun := run_length (fun q => negb (speech q)) (ps ++ [p]) in
  (speech p = ge p (threshold cfg)) /\
  (ev = Some SpeechStart <->
     is_speaking sm = false /\ speech p = true /\ min_speech_chunks cfg <= run) /\
  (ev = Some SpeechStart -> run = Nat.max 1 (min_speech_chunks cfg)) /\
  (ev = Some SpeechEnd <->
     is_speaking sm = true /\ speech p = false /\ min_silence_chunks cfg <= silrun) /\
  (ev = Some SpeechEnd -> silrun = Nat.max 1 (min_silence_chunks cfg)) /\
  (ev = None <-> ev <> Some SpeechStart /\ ev <> Some SpeechEnd) /\
  (forall xs q ys,
     length xs = min_speech_chunks cfg - 1 ->
     length ys = min_speech_chunks cfg - 1 ->
     forallb speech xs = true -> speech q = false -> forallb speech ys = true ->
     ~ In (Some SpeechStart) (snd (process_all ge (new cfg) (xs ++ q :: ys)))).
Proof.
  intros sm ev speech run silrun.
  pose proof (reachable_invariant cfg ps) as (H1 & H2 & H3 & H4).
  pose proof (state_after_config (new cfg) ps) as Hc. simpl in Hc.
  subst ev run silrun speech. fold sm in H1, H2, H3, H4, Hc |- *.
  rewrite !run_length_snoc.
  split; [reflexivity|].
  split; [|split; [|split; [|split; [|split]]]];
    try (intros; apply interrupted_run_no_start; assumption);
    destruct sm as [c sp sc lc]; simpl in *; subst c;
    unfold process, is_speech_chunk in *; simpl;
    destruct (ge p (threshold cfg)) eqn:Hp; destruct sp; simpl;
    rewrite <- ?H1, <- ?H2;
    repeat match goal with
           | |- context [?a <=? ?b] =>
               let E := fresh "E" in
               destruct (a <=? b) eqn:E;
               [apply Nat.leb_le in E | apply Nat.leb_gt in E]
           end; simpl;
    repeat split; intros;
    repeat match goal with
           | H : _ /\ _ |- _ => destruct H
           | H : Some _ = Some _ |- _ => injection H as H
           end;
    try discriminate; try congruence; try lia;
    try (destruct (H3 eq_refl); destruct (min_speech_chunks cfg); lia);
    try (destruct (H4 eq_refl); destruct (min_silence_chunks cfg); lia).
Qed.

(** C9 (amended): both counters are 0 in a freshly constructed or reset
    [VadStateMachine]; every [process] step leaves exactly one of them
    nonzero; so in every state reached from construction at most one is
    nonzero, and exactly one once a chunk has been processed. *)
Theorem vad_counters_at_most_one (cfg : VadConfig f32) :
  speech_chunk_count (new cfg) = 0 /\ silence_chunk_count (new cfg) = 0 /\
  (forall sm : VadStateMachine f32,
     speech_chunk_count (reset sm) = 0 /\ silence_chunk_count (reset sm) = 0) /\
  (forall sm p, exactly_one_nonzero (fst (process ge sm p)) = true) /\
  (forall ps, at_most_one_nonzero (state_after ge (new cfg) ps) = true) /\
  (forall ps p, exactly_one_nonzero (state_after ge (new cfg) (ps ++ [p])) = true).
Proof.
  assert (Hstep : forall sm p, exactly_one_nonzero (fst (process ge sm p)) = true).
  { intros sm p. unfold process, exactly_one_nonzero.
    destruct (ge p _), (is_speaking sm); simpl;
      repeat match goal with |- context [if ?b then _ else _] => destruct b end;
      reflexivity. }
  split; [reflexivity|]. split; [reflexivity|].
  split; [intros; split; reflexivity|].
  split; [exact Hstep|].
  split.
  - intros ps. destruct ps as [|p ps] using rev_ind; [reflexivity|].
    rewrite state_after_snoc. specialize (Hstep (state_after ge (new cfg) ps) p).
    revert Hstep. unfold exactly_one_nonzero, at_most_one_nonzero.
    destruct (speech_chunk_count _) as [|n], (silence_chunk_count _) as [|m];
      simpl; congruence.
  - intros ps p. rewrite state_after_snoc. apply Hstep.
Qed.

End Props.


(** C1, at a concrete input: with [min_speech_chunks = 2], the sequence
    0.8, 0.2, 0.9 never produces [SpeechStart]. *)
Lemma vad_events_exact_witness :
  (length [80%Z] = min_speech_chunks Concrete.cfg_default_Z - 1 /\
   forallb (is_speech_chunk Z.geb Concrete.cfg_default_Z) [80%Z] = true /\
   is_speech_chunk Z.geb Concrete.cfg_default_Z 20%Z = false) /\
  ~ In (Some SpeechStart)
      (snd (process_all Z.geb (new Concrete.cfg_default_Z) ([80%Z] ++ 20%Z :: [90%Z]))).
Proof.
  split; [repeat split; reflexivity|].
  exact (proj2 (proj2 (proj2 (proj2 (proj2 (proj2
           (vad_events_exact Z Z.geb Concrete.cfg_default_Z [] 0%Z)))))) [80%Z] 20%Z [90%Z]
           eq_refl eq_refl eq_refl eq_refl eq_refl).
Defined.

(** C9: the freshly constructed state violates "exactly one counter is
    nonzero": both are 0. *)
Lemma vad_fresh_state_both_zero :
  exactly_one_nonzero (new Concrete.cfg_default_Z) = false.
Proof. reflexivity. Qed.

End VadProofs.

(* ------------------------------------------------------------------ *)
(** ** The engine *)

Module EngineProofs.
Import EngineM.

Section Props.
Context {P : Platform}.

(** A failing branch of [initialize]. *)
Local Ltac init_failure :=
  split;
  [ intros ? H; injection H as <-;
    split; [reflexivity | split; [reflexivity | simpl; intuition discriminate]]
  | split; [intros H; discriminate H | intros H; right; exact H] ].

(** [Engine::initialize] *)

(** C6: a failing [initialize] changes nothing but the model files: the
    engine keeps its configuration and its (absent) components, so it stays
    un-initialized and is a valid input for another call; the engine
    becomes initialized only through a successful call, which has reported
    [Ready] as its last progress event, and [Ready] is never reported by a
    failing call. *)
Theorem initialize_failure_leaves_engine (e : Engine) :
  let res := initialize e in
  let e' := fst (fst res) in
  let events := snd (fst res) in
  let r := snd res in
  (forall er, r = Err er ->
     e' = {| config := config e; model_manager := model_manager e';
             components := components e |} /\
     is_initialized e' = is_initialized e /\ ~ In Ready events) /\
  (r = Ok tt -> is_initialized e' = true /\ exists pre, events = pre ++ [Ready]) /\
  (is_initialized e' = true -> r = Ok tt \/ is_initialized e = true).
Proof.
  intros res e' events r. subst res e' events r.
  unfold initialize, with_model_manager.
  destruct (ensure_model (model_manager e) SileroVad) as [mm1 r1].
  destruct r1 as [vp|er1]; simpl; [|init_failure].
  destruct (ensure_model mm1 _) as [mm2 r2].
  destruct r2 as [wp|er2]; simpl; [|init_failure].
  destruct (vad_new vp default_vad_config) as [v|er3]; simpl; [|init_failure].
  destruct (whisper_new wp (first_language (config e))) as [t|er4]; simpl;
    [|init_failure].
  split; [intros ? H; discriminate H|].
  split; [intros _; split; [reflexivity|eexists [_; _]; reflexivity]|].
  intros _; left; reflexivity.
Qed.

(** [Engine::run_loop] *)

(** C5: [run_loop] on an engine whose components are absent returns the
    not-initialized error at once, with no effect at all (the capture device
    is not started), and no call on an initialized engine returns an error
    with that message. *)
Theorem run_loop_requires_initialize (e : Engine) (inputs : list (LoopInput f32)) :
  components e = None ->
  run_loop e inputs = (e, [], Some (Err [not_initialized_msg])) /\
  ~ In StartCapture (snd (fst (run_loop e inputs))) /\
  (forall (e2 : Engine) inputs2 er,
     components e2 <> None -> snd (run_loop e2 inputs2) = Some (Err er) ->
     hd_error er <> Some not_initialized_msg).
Proof.
  intros He. unfold run_loop at 1 2. rewrite He. split; [reflexivity|].
  split; [simpl; tauto|].
  intros e2 inputs2 er Hc. unfold run_loop.
  destruct (components e2) as [comps|]; [|congruence].
  destruct capture_start as [rate|er1]; simpl.
  2:{ intros H; injection H as <-; simpl; unfold not_initialized_msg;
      intros H; inversion H. }
  unfold resampler_new.
  destruct (fft_new rate TARGET_SAMPLE_RATE 1024) as [f|er2]; simpl.
  2:{ intros H; injection H as <-; simpl; unfold not_initialized_msg;
      intros H; inversion H. }
  match goal with
  | |- context [event_loop ?a ?b ?c ?d] => destruct (event_loop a b c d) as [st exited]
  end.
  destruct exited; simpl; discriminate.
Qed.

End Props.
End EngineProofs.

Module LoopProofs.
Import EngineM.

Section Props.
Context {P : Platform}.

Lemma vad_process_transitions (v : VoiceActivityDetector) (chunk : list f32) :
  let res := vad_process v chunk in
  vad_is_speaking (fst res) =
    match snd res with
    | Ok (Some Vad.SpeechStart) => true
    | Ok (Some Vad.SpeechEnd) => false
    | _ => vad_is_speaking v
    end /\
  (snd res = Ok (Some Vad.SpeechStart) -> vad_is_speaking v = false) /\
  (snd res = Ok (Some Vad.SpeechEnd) -> vad_is_speaking v = true).
Proof.
  unfold vad_process, vad_is_speaking.
  destruct (process_chunk (det v) chunk) as [d [p|er]]; simpl;
    [|repeat split; intros; discriminate].
  destruct (state_machine v) as [c sp sc lc].
  unfold Vad.process; simpl.
  destruct (f32_ge p (Vad.threshold c)), sp; simpl;
    repeat match goal with |- context [if ?b then _ else _] => destruct b end;
    simpl; repeat split; intros; congruence.
Qed.

Lemma vad_chunk_step_inv st chunk : buffer_inv st -> buffer_inv (vad_chunk_step st chunk).
Proof.
  unfold buffer_inv, vad_chunk_step. intros Hinv.
  pose proof (vad_process_transitions (ls_vad st) chunk) as (T1 & T2 & T3).
  destruct (vad_process (ls_vad st) chunk) as [v' r]. simpl in *.
  destruct r as [[[|]|]|er]; simpl.
  - congruence.
  - destruct (on_speech_end _ _); reflexivity.
  - rewrite T1. intros Hs. rewrite Hs, Hinv; auto.
  - rewrite T1. intros Hs. rewrite Hs, Hinv; auto.
Qed.

Lemma drain_vad_inv fuel k st : buffer_inv st -> buffer_inv (drain_vad fuel k st).
Proof.
  revert st. induction fuel as [|f IH]; intros st H; simpl; [exact H|].
  destruct (k <=? length (vad_buffer st)); [|exact H].
  apply IH, vad_chunk_step_inv. exact H.
Qed.

Lemma tick_inv rc vc st r : buffer_inv st -> buffer_inv (tick rc vc st r).
Proof.
  intros H. destruct r as [samples|]; simpl; [|exact H].
  destruct (drain_resampler _ _ _ _ _) as [[rs vb] ib'].
  apply drain_vad_inv. exact H.
Qed.

Lemma event_loop_inv rc vc st inputs :
  buffer_inv st -> buffer_inv (fst (event_loop rc vc st inputs)).
Proof.
  revert st. induction inputs as [|[|r] rest IH]; intros st H; simpl; auto.
  apply IH, tick_inv. exact H.
Qed.

(** C2: every VAD-sized chunk drained in the loop goes through one
    [vad_chunk_step], which appends it to the speech buffer once exactly
    when the VAD was speaking before the chunk or the chunk produced
    [SpeechStart] (the [clear] on [SpeechStart] only empties a buffer that
    is already empty); on [SpeechEnd] the appended buffer is handed to the
    transcription step and then cleared. The invariant this needs holds in
    every state of the loop, starting from the empty speech buffer. *)
Theorem vad_chunk_buffered_once (st : LoopState) (chunk : list f32) :
  buffer_inv st ->
  let st' := vad_chunk_step st chunk in
  let speaking := vad_is_speaking (ls_vad st) in
  let ev := snd (vad_process (ls_vad st) chunk) in
  let appended := speaking ||
    match ev with Ok (Some Vad.SpeechStart) => true | _ => false end in
  (ev <> Ok (Some Vad.SpeechEnd) ->
     speech_buffer st' = speech_buffer st ++ (if appended then chunk else [])) /\
  (ev = Ok (Some Vad.SpeechEnd) ->
     appended = true /\ speech_buffer st' = [] /\
     log st' = log st ++ snd (on_speech_end (ls_transcriber st) (speech_buffer st ++ chunk))) /\
  buffer_inv st' /\
  (forall rc vc st0 inputs, buffer_inv st0 -> buffer_inv (fst (event_loop rc vc st0 inputs))) /\
  (forall (v : VoiceActivityDetector) t rs,
     buffer_inv {| ls_vad := v; ls_transcriber := t; ls_resampler := rs;
                   input_buffer := []; vad_buffer := []; speech_buffer := [];
                   log := [StartCapture] |}).
Proof.
  intros Hinv st' speaking ev appended.
  split; [|split; [|split; [apply vad_chunk_step_inv; exact Hinv|
                             split; [exact event_loop_inv | intros; intro; reflexivity]]]];
    subst st' speaking ev appended; unfold vad_chunk_step;
    pose proof (vad_process_transitions (ls_vad st) chunk) as (T1 & T2 & T3);
    destruct (vad_process (ls_vad st) chunk) as [v' r]; simpl in *;
    destruct r as [[[|]|]|er]; simpl; intros Hne;
    try (exfalso; apply Hne; reflexivity); try discriminate.
  - rewrite (Hinv (T2 eq_refl)). rewrite orb_true_r. reflexivity.
  - destruct (vad_is_speaking (ls_vad st)); simpl; [reflexivity|].
    rewrite app_nil_r. reflexivity.
  - destruct (vad_is_speaking (ls_vad st)); simpl; [reflexivity|].
    rewrite app_nil_r. reflexivity.
  - rewrite (T3 eq_refl). simpl.
    destruct (on_speech_end _ _); simpl. auto.
Qed.

(** C3: when a chunk produces [SpeechEnd], a non-empty speech buffer is
    passed to [transcribe] once; [on_transcription] is called exactly when
    the (trimmed) text is non-empty; a failure is only logged; an empty
    buffer is not transcribed; the speech buffer is empty afterwards in
    every case. The loop leaves only on cancellation: whatever the
    transcriptions return, it has exited after a schedule exactly when the
    schedule contains a cancellation. *)
Theorem speech_end_transcribes_then_clears (st : LoopState) (chunk : list f32) :
  snd (vad_process (ls_vad st) chunk) = Ok (Some Vad.SpeechEnd) ->
  let buf := if vad_is_speaking (ls_vad st)
             then speech_buffer st ++ chunk else speech_buffer st in
  let st' := vad_chunk_step st chunk in
  speech_buffer st' = [] /\
  (buf = [] -> log st' = log st) /\
  (buf <> [] ->
     log st' = log st ++ Transcribe buf ::
       match snd (transcribe (ls_transcriber st) buf) with
       | Ok text => if String.eqb text "" then [] else [OnTranscription text]
       | Err _ => [TranscriptionFailed]
       end) /\
  (forall rc vc st0 inputs,
     snd (event_loop rc vc st0 inputs) = existsb is_cancelled inputs).
Proof.
  intros Hev buf st'. subst buf st'. unfold vad_chunk_step.
  destruct (vad_process (ls_vad st) chunk) as [v' r]. simpl in Hev. subst r.
  split; [destruct (on_speech_end _ _); reflexivity|].
  split; [|split].
  - intros Hb. rewrite Hb. simpl. rewrite app_nil_r. reflexivity.
  - intros Hb. unfold on_speech_end.
    destruct (if vad_is_speaking (ls_vad st) then _ else _) as [|x xs];
      [congruence|].
    destruct (transcribe (ls_transcriber st) (x :: xs)) as [t' [text|er]]; simpl;
      reflexivity.
  - intros rc vc st0 inputs. revert st0.
    induction inputs as [|[|r] rest IH]; intros st0; simpl; auto.
Qed.

End Props.
End LoopProofs.

(* ------------------------------------------------------------------ *)
(** ** The controller *)

Module CtrlProofs.
Import Ctrl.

Section Props.
Variable Engine : Type.
Variable is_initialized : Engine -> bool.
Variable join_task : Engine -> option Engine.

(** C7: [start_listening] in [Paused] with no engine, or with an engine that
    is not initialized, fails and leaves the controller as it was (still
    [Paused], the engine put back); in [Listening] it succeeds and changes
    nothing; in [Stopped] and [Initializing] it fails with a non-empty
    message and changes nothing. *)
Theorem start_listening_guards (c : Controller Engine) :
  (state c = Paused ->
   (engine c = None \/ exists en, engine c = Some en /\ is_initialized en = false) ->
   fst (start_listening is_initialized c) = c /\
   state (fst (start_listening is_initialized c)) = Paused /\
   engine (fst (start_listening is_initialized c)) = engine c /\
   exists er, snd (start_listening is_initialized c) = EngineM.Err er) /\
  (state c = Listening -> start_listening is_initialized c = (c, EngineM.Ok tt)) /\
  (state c = Stopped \/ state c = Initializing ->
   exists msg, start_listening is_initialized c = (c, EngineM.Err [msg]) /\ msg <> ""%string).
Proof.
  destruct c as [st tx en h l]; simpl.
  split; [|split].
  - intros -> Hen. unfold start_listening; simpl.
    destruct Hen as [->|(e & -> & Hi)]; simpl.
    + repeat split; eauto.
    + rewrite Hi. simpl. repeat split; eauto.
  - intros ->. reflexivity.
  - intros [-> | ->]; simpl; eexists; split; try reflexivity; discriminate.
Qed.

Lemma stop_listening_keeps_signal (c : Controller Engine) :
  shutdown_tx (fst (stop_listening join_task c)) = shutdown_tx c /\
  count_shutdown_signals (log (fst (stop_listening join_task c))) =
  count_shutdown_signals (log c).
Proof.
  destruct c as [st tx en h l]. unfold stop_listening; simpl.
  destruct st; simpl; auto.
  destruct h as [[te]|]; simpl.
  - destruct (join_task te); simpl; split; [reflexivity| |reflexivity|];
      unfold count_shutdown_signals; rewrite !filter_app, !length_app; simpl; lia.
  - split; [reflexivity|].
    unfold count_shutdown_signals; rewrite !filter_app, !length_app; simpl; lia.
Qed.

Lemma shutdown_once (c : Controller Engine) :
  state (shutdown join_task c) = Stopped /\
  shutdown_tx (shutdown join_task c) = false /\
  count_shutdown_signals (log (shutdown join_task c)) =
  count_shutdown_signals (log c) + (if shutdown_tx c then 1 else 0).
Proof.
  pose proof (stop_listening_keeps_signal c) as [Htx Hcount].
  unfold shutdown. simpl. rewrite Htx.
  destruct (shutdown_tx c); simpl; repeat split;
    unfold count_shutdown_signals in *; rewrite ?filter_app, ?length_app; simpl; lia.
Qed.

(** C8: however many times [shutdown] is called, from any state, the
    controller ends [Stopped], the sender is consumed, and the shutdown
    signal has been sent once in total if the sender was still there (as
    [Controller::new] leaves it), never again; each call starts with the
    effects of [stop_listening], whose result is ignored. *)
Theorem shutdown_signal_once (c : Controller Engine) (n : nat) (en : Engine) :
  let c' := Nat.iter (S n) (shutdown join_task) c in
  state c' = Stopped /\ shutdown_tx c' = false /\
  count_shutdown_signals (log c') =
    count_shutdown_signals (log c) + (if shutdown_tx c then 1 else 0) /\
  count_shutdown_signals (log (Nat.iter (S n) (shutdown join_task) (new en))) = 1 /\
  (forall d : Controller Engine, exists rest,
     log (shutdown join_task d) = log (fst (stop_listening join_task d)) ++ rest).
Proof.
  assert (Hiter : forall d,
    state (Nat.iter (S n) (shutdown join_task) d) = Stopped /\
    shutdown_tx (Nat.iter (S n) (shutdown join_task) d) = false /\
    count_shutdown_signals (log (Nat.iter (S n) (shutdown join_task) d)) =
      count_shutdown_signals (log d) + (if shutdown_tx d then 1 else 0)).
  { intros d. induction n as [|n IH].
    - apply shutdown_once.
    - change (Nat.iter (S (S n)) (shutdown join_task) d)
        with (shutdown join_task (Nat.iter (S n) (shutdown join_task) d)).
      destruct IH as (_ & Htx & Hc).
      pose proof (shutdown_once (Nat.iter (S n) (shutdown join_task) d)) as (A & B & C).
      rewrite Htx in C. repeat split; auto. lia. }
  intros c'. destruct (Hiter c) as (A & B & C).
  repeat split; auto.
  - destruct (Hiter (new en)) as (_ & _ & D). rewrite D. reflexivity.
  - intros d. unfold shutdown. simpl.
    destruct (shutdown_tx (fst (stop_listening join_task d))); simpl.
    + eexists. rewrite <- app_assoc. reflexivity.
    + eexists. reflexivity.
Qed.

End Props.
End CtrlProofs.

(* ------------------------------------------------------------------ *)
(** ** [AudioBuffer::duration_secs] *)

Module AudioProofs.
Import Audio.

(** Two samples at 4 Hz last 0.5 s: the mantissa 2^23 at exponent -24. *)
Example duration_two_samples_at_4hz :
  duration_secs {| samples := [S754_zero false; S754_zero false]; sample_rate := 4 |}
  = S754_finite false 8388608 (-24).
Proof. vm_compute. reflexivity. Qed.

(** C10: with [sample_rate = 0], [duration_secs] is the literal [0.0]
    (positive zero), a finite value and not NaN, whatever the samples. *)
Theorem duration_secs_zero_rate (s : list f32) :
  duration_secs {| samples := s; sample_rate := 0 |} = S754_zero false /\
  f32_is_finite (duration_secs {| samples := s; sample_rate := 0 |}) = true /\
  f32_is_nan (duration_secs {| samples := s; sample_rate := 0 |}) = false.
Proof. repeat split. Qed.

End AudioProofs.

(* ------------------------------------------------------------------ *)
(** ** Evaluations and witnesses on the concrete instances *)

Module Witnesses.
Import EngineM Concrete.

(** End to end: the tick's twelve VAD chunks give one utterance of ten
    chunks (5120 samples) from [SpeechStart] to [SpeechEnd], transcribed
    once and passed to [on_transcription]; cancellation then stops the
    capture and [run_loop] returns [Ok]. *)
Example run_loop_one_utterance :
  match run_loop engine1 capture_schedule with
  | (_, [StartCapture; Transcribe audio; OnTranscription text; StopCapture],
     Some (Ok tt)) => (length audio, text)
  | _ => (0, ""%string)
  end = (5120, "words"%string).
Proof. vm_compute. reflexivity. Qed.

(** C2 at a concrete state: a speech chunk that does not yet start speech
    is not buffered. *)
Lemma vad_chunk_buffered_once_witness :
  buffer_inv loop_state_silent /\
  speech_buffer (vad_chunk_step loop_state_silent [1; 2]%Z) =
  speech_buffer loop_state_silent ++ [].
Proof.
  assert (H : buffer_inv loop_state_silent) by (intros _; reflexivity).
  split; [exact H|].
  exact (proj1 (LoopProofs.vad_chunk_buffered_once loop_state_silent [1; 2]%Z H)
           ltac:(vm_compute; discriminate)).
Defined.

(** C3 at a concrete state: the eighth silence chunk ends speech and the
    speech buffer is cleared. *)
Lemma speech_end_transcribes_then_clears_witness :
  snd (vad_process (ls_vad loop_state_speaking) [1; 2]%Z) = Ok (Some Vad.SpeechEnd) /\
  speech_buffer (vad_chunk_step loop_state_speaking [1; 2]%Z) = [].
Proof.
  assert (H : snd (vad_process (ls_vad loop_state_speaking) [1; 2]%Z)
              = Ok (Some Vad.SpeechEnd)) by reflexivity.
  split; [exact H|].
  exact (proj1 (LoopProofs.speech_end_transcribes_then_clears loop_state_speaking [1; 2]%Z H)).
Defined.

(** C5 at the fresh engine. *)
Lemma run_loop_requires_initialize_witness :
  components engine0 = None /\
  run_loop engine0 capture_schedule = (engine0, [], Some (Err [not_initialized_msg])).
Proof.
  assert (H : components engine0 = None) by reflexivity.
  split; [exact H|].
  exact (proj1 (EngineProofs.run_loop_requires_initialize engine0 capture_schedule H)).
Defined.

(** C6 at the fresh engine: initialization succeeds and the engine is
    initialized. *)
Lemma initialize_failure_leaves_engine_witness :
  snd (initialize engine0) = Ok tt /\
  is_initialized (fst (fst (initialize engine0))) = true.
Proof.
  assert (H : snd (initialize engine0) = Ok tt) by reflexivity.
  split; [exact H|].
  exact (proj1 (proj1 (proj2 (EngineProofs.initialize_failure_leaves_engine engine0)) H)).
Defined.

(** C7 at a paused controller holding an uninitialized engine. *)
Lemma start_listening_guards_witness :
  Ctrl.state paused_controller = Ctrl.Paused /\
  fst (Ctrl.start_listening (fun b : bool => b) paused_controller) = paused_controller.
Proof.
  assert (H : Ctrl.state paused_controller = Ctrl.Paused) by reflexivity.
  split; [exact H|].
  exact (proj1 (proj1 (CtrlProofs.start_listening_guards bool (fun b => b) paused_controller)
                  H (or_intror (ex_intro _ false (conj eq_refl eq_refl))))).
Defined.

End Witnesses.

(* ------------------------------------------------------------------ *)
(** ** The VAD state machine: event sequences *)

Module VadSeqProofs.
Import Vad VadExt.

Section Props.
Variable f32 : Type.
Variable ge : f32 -> f32 -> bool.

(** One step: [SpeechStart] only when not speaking, [SpeechEnd] only when
    speaking, and [is_speaking] follows the event. *)
Lemma process_speaking_step (sm : VadStateMachine f32) (p : f32) :
  match process ge sm p with
  | (sm1, Some SpeechStart) => is_speaking sm = false /\ is_speaking sm1 = true
  | (sm1, Some SpeechEnd) => is_speaking sm = true /\ is_speaking sm1 = false
  | (sm1, None) => is_speaking sm1 = is_speaking sm
  end.
Proof.
  unfold process.
  destruct (ge p (threshold (config sm))), (is_speaking sm) eqn:Hs; simpl;
    try (destruct (_ <=? _)); simpl; auto.
Qed.

(** Speech segments never nest or overlap: from any state, the events
    returned by a sequence of [process] calls alternate, starting with
    [SpeechEnd] while speaking and [SpeechStart] otherwise; the final
    [is_speaking] is that of the last event (unchanged without events). *)
Theorem vad_events_alternate (sm : VadStateMachine f32) (ps : list f32) :
  alternates (is_speaking sm) (vad_events (snd (process_all ge sm ps))) = true /\
  is_speaking (fst (process_all ge sm ps)) =
    match rev (vad_events (snd (process_all ge sm ps))) with
    | SpeechStart :: _ => true
    | SpeechEnd :: _ => false
    | [] => is_speaking sm
    end.
Proof.
  revert sm; induction ps as [|p ps IH]; intros sm; [simpl; auto|].
  simpl. pose proof (process_speaking_step sm p) as Hstep.
  destruct (process ge sm p) as [sm1 ev].
  specialize (IH sm1).
  destruct (process_all ge sm1 ps) as [sm2 evs]. simpl in *.
  destruct IH as [IHa IHb].
  destruct ev as [[|]|]; simpl.
  - destruct Hstep as [H0 H1]. rewrite H0. rewrite H1 in IHa. rewrite IHa.
    split; [reflexivity|]. rewrite IHb.
    destruct (rev (vad_events evs)) as [|[|] ?]; simpl; [exact H1|reflexivity|reflexivity].
  - destruct Hstep as [H0 H1]. rewrite H0. rewrite H1 in IHa. rewrite IHa.
    split; [reflexivity|]. rewrite IHb.
    destruct (rev (vad_events evs)) as [|[|] ?]; simpl; [exact H1|reflexivity|reflexivity].
  - rewrite <- Hstep. split; [exact IHa|]. rewrite IHb. reflexivity.
Qed.

End Props.
End VadSeqProofs.

(* ------------------------------------------------------------------ *)
(** ** The resampler: complete chunks only *)

Module ResamplerProofs.
Import Audio.

Section Props.
Variable sample : Type.
Variable Fft : Type.
Variable fft_process : Fft -> list sample -> Fft * option (list sample).

(** The chunks of [chunks_exact_fuel], by index, given enough fuel. *)
Lemma chunks_exact_fuel_nth (n fuel : nat) (l : list sample) :
  0 < n -> length l / n <= fuel ->
  chunks_exact_fuel sample fuel n l =
  map (fun i => firstn n (skipn (i * n) l)) (seq 0 (length l / n)).
Proof.
  intros Hn. revert l; induction fuel as [|f IH]; intros l Hf.
  - assert (length l / n = 0) as -> by lia. reflexivity.
  - simpl. assert ((0 <? n) = true) as -> by (apply Nat.ltb_lt; exact Hn).
    destruct (n <=? length l) eqn:Hle; simpl.
    + apply Nat.leb_le in Hle.
      assert (Hdiv : length l / n = S (length (skipn n l) / n)).
      { rewrite length_skipn.
        replace (length l) with (1 * n + (length l - n)) at 1 by lia.
        rewrite Nat.div_add_l by lia. reflexivity. }
      rewrite Hdiv. simpl. f_equal.
      rewrite IH by lia.
      rewrite <- seq_shift, map_map. apply map_ext. intros i.
      rewrite skipn_skipn. f_equal. f_equal. lia.
    + apply Nat.leb_gt in Hle. rewrite Nat.div_small by exact Hle. reflexivity.
Qed.

Lemma chunks_exact_nth (n : nat) (l : list sample) :
  0 < n ->
  chunks_exact n l = map (fun i => firstn n (skipn (i * n) l)) (seq 0 (length l / n)).
Proof.
  intros Hn. unfold chunks_exact. apply chunks_exact_fuel_nth; [exact Hn|].
  apply Nat.Div0.div_le_upper_bound; nia.
Qed.

(** [chunks_exact] only reads the complete chunks. *)
Lemma chunks_exact_prefix (n : nat) (l : list sample) :
  0 < n -> chunks_exact n (firstn (n * (length l / n)) l) = chunks_exact n l.
Proof.
  intros Hn. rewrite !chunks_exact_nth by exact Hn.
  assert (Hm : n * (length l / n) <= length l) by (apply Nat.Div0.mul_div_le).
  rewrite length_firstn, Nat.min_l by exact Hm.
  rewrite Nat.mul_comm, Nat.div_mul by lia.
  apply map_ext_in. intros i Hi. apply in_seq in Hi.
  rewrite skipn_firstn_comm, firstn_firstn, Nat.min_l; [reflexivity|].
  nia.
Qed.

(** [AudioResampler::process] with a positive input chunk size [n] reads
    only the first [n * (len / n)] samples of its input: the trailing
    [len mod n] samples are dropped, not kept for the next call. *)
Theorem resampler_drops_partial_chunk (ar : AudioResampler Fft) (input : list sample) :
  0 < chunk_size ar ->
  process fft_process ar input =
  process fft_process ar
    (firstn (chunk_size ar * (length input / chunk_size ar)) input).
Proof.
  unfold chunk_size. intros Hn. set (n := chunk_size_in Fft ar) in *.
  pose proof (chunks_exact_prefix n input Hn) as Hc.
  destruct input as [|x t]; [rewrite firstn_nil; reflexivity|].
  destruct (firstn (n * (length (x :: t) / n)) (x :: t)) as [|y u] eqn:Hp.
  - (* fewer than [n] samples: no chunk at all *)
    assert (Hz : chunks_exact n (x :: t) = []).
    { rewrite <- Hc. reflexivity. }
    unfold process. fold n. rewrite Hz. destruct ar; reflexivity.
  - unfold process. fold n. rewrite <- Hc. reflexivity.
Qed.

End Props.
End ResamplerProofs.

(* ------------------------------------------------------------------ *)
(** ** Down-mixing, [try_recv], [append] *)

Module AudioExtProofs.
Import AudioExt.

Section Props.
Variable f32 : Type.
Variable f32_add : f32 -> f32 -> f32.
Variable f32_div : f32 -> f32 -> f32.
Variable sum_start : f32.
Variable two : f32.
Variable f32_of_usize : nat -> f32.

Lemma chunks_exact_length {A} (n : nat) (l : list A) :
  0 < n -> length (Audio.chunks_exact n l) = length l / n.
Proof.
  intros Hn. rewrite ResamplerProofs.chunks_exact_nth by exact Hn.
  rewrite length_map, length_seq. reflexivity.
Qed.

(** [to_mono] returns a mono signal unchanged, panics exactly on zero
    channels, and otherwise returns one sample per complete frame: the
    length is [len / channels], a trailing partial frame is dropped.
    [stereo_to_mono] likewise returns [len / 2] samples. *)
Theorem to_mono_frames (samples : list f32) (channels : nat) :
  to_mono f32_add f32_div sum_start f32_of_usize samples 1 = Returns samples /\
  to_mono f32_add f32_div sum_start f32_of_usize samples 0 = Panics /\
  match to_mono f32_add f32_div sum_start f32_of_usize samples channels with
  | Returns m => length m = length samples / channels
  | Panics => channels = 0
  end /\
  length (stereo_to_mono f32_add f32_div sum_start two samples) = length samples / 2.
Proof.
  split; [reflexivity|]. split; [reflexivity|]. split.
  - unfold to_mono. destruct (channels =? 1) eqn:H1.
    + apply Nat.eqb_eq in H1. subst. rewrite Nat.div_1_r. reflexivity.
    + destruct (channels =? 0) eqn:H0; [apply Nat.eqb_eq; exact H0|].
      apply Nat.eqb_neq in H0. rewrite length_map.
      apply chunks_exact_length. lia.
  - unfold stereo_to_mono. rewrite length_map. apply chunks_exact_length. lia.
Qed.

(** [try_recv] empties the queue and keeps the channel count; it returns
    [None] exactly when no sample was queued, panics on a zero channel
    count with samples queued, and otherwise returns [len / channels]
    samples. With one channel it returns the queued messages concatenated
    in order. *)
Theorem try_recv_drains (c : Capture f32) (q : list (list f32)) :
  queue f32 (fst (try_recv f32_add f32_div sum_start f32_of_usize c)) = [] /\
  channels f32 (fst (try_recv f32_add f32_div sum_start f32_of_usize c)) = channels f32 c /\
  match snd (try_recv f32_add f32_div sum_start f32_of_usize c) with
  | Returns None => concat (queue f32 c) = []
  | Returns (Some m) =>
      concat (queue f32 c) <> [] /\ length m = length (concat (queue f32 c)) / channels f32 c
  | Panics => concat (queue f32 c) <> [] /\ channels f32 c = 0
  end /\
  snd (try_recv f32_add f32_div sum_start f32_of_usize {| queue := q; channels := 1 |}) =
    Returns (match concat q with [] => None | all => Some all end).
Proof.
  unfold try_recv. simpl.
  split; [destruct (concat (queue f32 c)); [|destruct to_mono]; reflexivity|].
  split; [destruct (concat (queue f32 c)); [|destruct to_mono]; reflexivity|].
  split.
  - destruct (concat (queue f32 c)) as [|x t] eqn:Hq; [reflexivity|].
    pose proof (proj1 (proj2 (proj2 (to_mono_frames (x :: t) (channels f32 c))))) as Hm.
    destruct (to_mono f32_add f32_div sum_start f32_of_usize (x :: t) (channels f32 c));
      simpl; split; auto; discriminate.
  - destruct (concat q); reflexivity.
Qed.

End Props.


End AudioExtProofs.

(* ------------------------------------------------------------------ *)
(** ** The Silero detector: shapes of its state *)

Module DetectorProofs.
Import VadDetector.

Section Props.
Variable f32 : Type.
Variable f32_zero : f32.
Variable Path Session Outputs : Type.
Variable load_session : Path -> EngineM.result Session.
Variable session_run : Session -> list f32 -> list f32 -> EngineM.result Outputs.
Variable extract_output extract_state : Outputs -> EngineM.result (list f32).
Variable invalid_chunk_size_msg : nat -> string.
Variable chunk_mismatch_msg : nat -> nat -> string.
Variable shape_error_msg : string.

Local Abbreviation process_chunk :=
  (VadDetector.process_chunk f32 f32_zero Session Outputs session_run
     extract_output extract_state chunk_mismatch_msg shape_error_msg).

Lemma chunk_sizes_large (k : nat) : In k VAD_CHUNK_SIZES -> CONTEXT_SIZE_16K <= k.
Proof.
  unfold VAD_CHUNK_SIZES, CONTEXT_SIZE_16K; simpl.
  intros [H|[H|[H|[]]]]; lia.
Qed.


(** [process_chunk] keeps a well-shaped detector well shaped (valid chunk
    size, 256 state values, 64 context samples) and never touches the
    session, the state machine or the chunk size. A chunk of the wrong
    length is refused with the detector unchanged; after a success the
    context is the chunk's last 64 samples. *)
Theorem process_chunk_shape (d : VoiceActivityDetector f32 Session) (audio : list f32) :
  well_shaped d ->
  let (d', r) := process_chunk d audio in
  well_shaped d' /\ session d' = session d /\ state_machine d' = state_machine d /\
  chunk_size d' = chunk_size d /\
  (length audio <> chunk_size d ->
     d' = d /\ r = EngineM.Err [chunk_mismatch_msg (length audio) (chunk_size d)]) /\
  (forall p, r = EngineM.Ok p -> context d' = skipn (length audio - 64) audio).
Proof.
  intros Hw. pose proof Hw as [Hin [Hst Hctx]].
  pose proof (chunk_sizes_large _ Hin) as Hk. unfold CONTEXT_SIZE_16K in Hk.
  unfold process_chunk.
  destruct (Nat.eqb_spec (length audio) (chunk_size d)) as [Hl|Hl]; simpl.
  2:{ repeat split; auto; intros; discriminate. }
  rewrite length_app, Hctx, Hl, Nat.add_comm, Nat.eqb_refl. simpl.
  assert (Hsk : length (skipn (length audio - 64) audio) = CONTEXT_SIZE_16K)
    by (rewrite length_skipn; unfold CONTEXT_SIZE_16K; lia).
  assert (Hsk' : length (skipn (chunk_size d - CONTEXT_SIZE_16K) audio) = CONTEXT_SIZE_16K)
    by (rewrite length_skipn; unfold CONTEXT_SIZE_16K in *; lia).
  destruct (session_run (session d) (context d ++ audio) (state d)) as [outs|e]; simpl.
  2:{ repeat split; auto; intros; try contradiction; congruence. }
  destruct (extract_output outs) as [od|e]; simpl.
  2:{ unfold well_shaped; simpl; repeat split; auto; intros; try contradiction; congruence. }
  destruct (extract_state outs) as [sd|e]; simpl.
  2:{ unfold well_shaped; simpl; repeat split; auto; intros; try contradiction; congruence. }
  destruct (Nat.eqb_spec (length sd) 256) as [Hs|Hs]; simpl;
    unfold well_shaped; simpl; repeat split; auto; intros; try contradiction; congruence.
Qed.

(** When the session runs but extracting the probability or the new
    LSTM state fails, the detector still moves its context on to the
    chunk's last 64 samples while its LSTM state stays the old one. *)
Theorem process_chunk_extract_failure (d : VoiceActivityDetector f32 Session)
    (audio : list f32) (outs : Outputs) :
  well_shaped d -> length audio = chunk_size d ->
  session_run (session d) (context d ++ audio) (state d) = EngineM.Ok outs ->
  (exists e, snd (process_chunk d audio) = EngineM.Err e) ->
  context (fst (process_chunk d audio)) = skipn (length audio - 64) audio /\
  state (fst (process_chunk d audio)) = state d.
Proof.
  intros [Hin [Hst Hctx]] Hl Hrun [e He]. revert He.
  unfold process_chunk.
  rewrite Hl, Nat.eqb_refl. simpl.
  rewrite length_app, Hctx, Hl, Nat.add_comm, Nat.eqb_refl. simpl.
  rewrite Hrun. rewrite <- Hl.
  destruct (extract_output outs) as [od|e']; simpl; [|auto].
  destruct (extract_state outs) as [sd|e'']; simpl; [|auto].
  destruct (length sd =? 256); simpl; [intros H; discriminate H|auto].
Qed.

End Props.
End DetectorProofs.

(* ------------------------------------------------------------------ *)
(** ** Whisper: the sample-rate check *)

Module WhisperProofs.
Import WhisperM.

Section Props.
Variable f32 : Type.
Variable WState : Type.
Variable full : WState -> option string -> list f32 -> WState * EngineM.result unit.
Variable segments : WState -> list (option string).
Variable trim : string -> string.
Variable rate_msg : nat -> string.


End Props.
End WhisperProofs.

(* ------------------------------------------------------------------ *)
(** ** The engine: initialisation progress, buffers, the loop's exit *)

Module EngineExtProofs.
Import EngineM.

(** Every speech model is fetched under its own model id, and never under
    the VAD model's id. *)
Theorem speech_model_ids_distinct (m1 m2 : SpeechModel) :
  (speech_model_to_model_id m1 = speech_model_to_model_id m2 <-> m1 = m2) /\
  speech_model_to_model_id m1 <> SileroVad.
Proof.
  split.
  - split; [destruct m1, m2; simpl; congruence | intros ->; reflexivity].
  - destruct m1; discriminate.
Qed.

Section Props.
Context {P : Platform}.

(** [initialize] always reports [Loading "silero-vad"] first, reports
    [Ready] exactly when it succeeds, and keeps the configuration; on
    success the engine is initialized and the reports are the two
    [Loading] events and [Ready]. *)
Theorem initialize_progress (e : Engine) :
  let '(e', evs, r) := initialize e in
  config e' = config e /\
  (exists rest, evs = Loading "silero-vad" :: rest) /\
  (r = Ok tt <-> In Ready evs) /\
  (r = Ok tt ->
     is_initialized e' = true /\
     evs = [Loading "silero-vad"; Loading (model_id_name (speech_model_to_model_id (model (config e))));
            Ready]).
Proof.
  unfold initialize.
  destruct (ensure_model (model_manager e) SileroVad) as [mm1 [p1|er1]]; simpl.
  2:{ split; [reflexivity|]. split; [eexists; reflexivity|].
      split; [simpl; intuition congruence | intros H; discriminate H]. }
  destruct (ensure_model mm1 (speech_model_to_model_id (model (config e)))) as [mm2 [p2|er2]];
    simpl.
  2:{ split; [reflexivity|]. split; [eexists; reflexivity|].
      split; [simpl; intuition congruence | intros H; discriminate H]. }
  destruct (vad_new p1 default_vad_config) as [v|er3]; simpl.
  2:{ split; [reflexivity|]. split; [eexists; reflexivity|].
      split; [simpl; intuition congruence | intros H; discriminate H]. }
  destruct (whisper_new p2 (first_language (config e))) as [t|er4]; simpl.
  2:{ split; [reflexivity|]. split; [eexists; reflexivity|].
      split; [simpl; intuition congruence | intros H; discriminate H]. }
  split; [reflexivity|]. split; [eexists; reflexivity|].
  split; [split; [intros _; simpl; auto | intros _; reflexivity] | auto].
Qed.

Lemma drain_resampler_short (fuel k : nat) rs (vb ib : list f32) :
  0 < k -> length ib <= fuel ->
  length (snd (drain_resampler fuel k rs vb ib)) < k.
Proof.
  intros Hk. revert rs vb ib; induction fuel as [|f IH]; intros rs vb ib Hf; simpl.
  - lia.
  - destruct (Nat.leb_spec k (length ib)) as [Hle|Hlt].
    + destruct (Audio.process fft_process rs (firstn k ib)) as [rs' r].
      apply IH. rewrite length_skipn. lia.
    + exact Hlt.
Qed.

Lemma vad_chunk_step_buffers (st : LoopState) (chunk : list f32) :
  vad_buffer (vad_chunk_step st chunk) = vad_buffer st /\
  input_buffer (vad_chunk_step st chunk) = input_buffer st.
Proof.
  unfold vad_chunk_step.
  destruct (vad_process (ls_vad st) chunk) as [v' [[[|]|]|er]]; simpl; auto.
  destruct (on_speech_end _ _); simpl; auto.
Qed.

Lemma drain_vad_short (fuel k : nat) (st : LoopState) :
  0 < k -> length (vad_buffer st) <= fuel ->
  length (vad_buffer (drain_vad fuel k st)) < k /\
  input_buffer (drain_vad fuel k st) = input_buffer st.
Proof.
  intros Hk. revert st; induction fuel as [|f IH]; intros st Hf; simpl.
  - split; [lia|reflexivity].
  - destruct (Nat.leb_spec k (length (vad_buffer st))) as [Hle|Hlt].
    + match goal with |- context [drain_vad f k (vad_chunk_step ?s ?c)] =>
        destruct (vad_chunk_step_buffers s c) as [H1 H2];
        assert (Hs : length (vad_buffer (vad_chunk_step s c)) <= f)
          by (rewrite H1; simpl; rewrite length_skipn; lia);
        destruct (IH _ Hs) as [H3 H4]; split; [exact H3 | rewrite H4, H2; reflexivity]
      end.
    + split; [exact Hlt | reflexivity].
Qed.

Lemma tick_buffers_short (rc vc : nat) (st : LoopState) (r : option (list f32)) :
  0 < rc -> 0 < vc -> length (input_buffer st) < rc -> length (vad_buffer st) < vc ->
  length (input_buffer (tick rc vc st r)) < rc /\ length (vad_buffer (tick rc vc st r)) < vc.
Proof.
  intros Hr Hv Hi Hb. destruct r as [samples|]; simpl; [|auto].
  pose proof (drain_resampler_short (length (input_buffer st ++ samples)) rc
                (ls_resampler st) (vad_buffer st) (input_buffer st ++ samples) Hr (le_n _)) as Hd.
  destruct (drain_resampler _ _ _ _ _) as [[rs vb] ib']. simpl in Hd.
  match goal with |- context [drain_vad ?f vc ?s] =>
    assert (Hs : length (vad_buffer s) <= f) by (simpl; lia);
    destruct (drain_vad_short f vc s Hv Hs) as [H1 H2]
  end.
  rewrite H2. simpl. split; assumption.
Qed.

(** With positive chunk sizes, every tick of the loop feeds all complete
    chunks on: once the buffers hold less than a chunk, after any
    schedule the input buffer holds less than one resampler chunk and the
    VAD buffer less than one VAD chunk. *)
Theorem event_loop_buffers_short (rc vc : nat) (st : LoopState) (inputs : list (LoopInput f32)) :
  0 < rc -> 0 < vc -> length (input_buffer st) < rc -> length (vad_buffer st) < vc ->
  length (input_buffer (fst (event_loop rc vc st inputs))) < rc /\
  length (vad_buffer (fst (event_loop rc vc st inputs))) < vc.
Proof.
  intros Hr Hv. revert st; induction inputs as [|i rest IH]; intros st Hi Hb; simpl; auto.
  destruct i as [|r]; simpl; auto.
  destruct (tick_buffers_short rc vc st r Hr Hv Hi Hb) as [H1 H2]. apply IH; assumption.
Qed.

Lemma vad_chunk_step_log (st : LoopState) (chunk : list f32) :
  exists s, log (vad_chunk_step st chunk) = log st ++ s.
Proof.
  unfold vad_chunk_step.
  destruct (vad_process (ls_vad st) chunk) as [v' [[[|]|]|er]]; simpl;
    try (exists []; rewrite app_nil_r; reflexivity).
  destruct (on_speech_end _ _) as [t' effs]; simpl. exists effs; reflexivity.
Qed.

Lemma drain_vad_log (fuel k : nat) (st : LoopState) :
  exists s, log (drain_vad fuel k st) = log st ++ s.
Proof.
  revert st; induction fuel as [|f IH]; intros st; simpl.
  - exists []; rewrite app_nil_r; reflexivity.
  - destruct (k <=? length (vad_buffer st)).
    + match goal with |- context [drain_vad f k (vad_chunk_step ?s ?c)] =>
        destruct (vad_chunk_step_log s c) as [s1 H1];
        destruct (IH (vad_chunk_step s c)) as [s2 H2]
      end.
      exists (s1 ++ s2). rewrite H2, H1, app_assoc. reflexivity.
    + exists []; rewrite app_nil_r; reflexivity.
Qed.

Lemma event_loop_log (rc vc : nat) (st : LoopState) (inputs : list (LoopInput f32)) :
  exists s, log (fst (event_loop rc vc st inputs)) = log st ++ s.
Proof.
  revert st; induction inputs as [|i rest IH]; intros st; simpl.
  - exists []; rewrite app_nil_r; reflexivity.
  - destruct i as [|r]; simpl; [exists []; rewrite app_nil_r; reflexivity|].
    destruct (IH (tick (Audio.chunk_size (ls_resampler st)) vc st r)) as [s2 H2].
    assert (Ht : exists s1, log (tick rc vc st r) = log st ++ s1).
    { destruct r as [samples|]; simpl; [|exists []; rewrite app_nil_r; reflexivity].
      destruct (drain_resampler _ _ _ _ _) as [[rs vb] ib'].
      match goal with |- context [drain_vad ?f vc ?s] => destruct (drain_vad_log f vc s) as [s1 H1] end.
      exists s1. rewrite H1. reflexivity. }
    destruct Ht as [s1 H1]. destruct (IH (tick rc vc st r)) as [s3 H3].
    exists (s1 ++ s3). rewrite H3, H1, app_assoc. reflexivity.
Qed.

(** [run_loop] on an initialized engine hands back an engine that is
    still initialized, with the same configuration and model files; its
    first effect is starting the capture, and when it returns [Ok] the
    capture was stopped as its last effect. *)
Theorem run_loop_keeps_engine (e : Engine) (inputs : list (LoopInput f32)) :
  is_initialized e = true ->
  let '(e', effs, r) := run_loop e inputs in
  is_initialized e' = true /\ config e' = config e /\ model_manager e' = model_manager e /\
  (exists mid, effs = StartCapture :: mid) /\
  (r = Some (Ok tt) -> exists mid, effs = StartCapture :: mid ++ [StopCapture]).
Proof.
  intros He. unfold run_loop.
  unfold is_initialized in He. destruct (components e) as [comps|] eqn:Hc; [|discriminate He].
  destruct (context "Failed to start audio capture" capture_start) as [sr|er]; simpl.
  2:{ unfold is_initialized; rewrite Hc. repeat split; [eexists; reflexivity|].
      intros H; discriminate H. }
  destruct (context "Failed to create resampler" (resampler_new sr TARGET_SAMPLE_RATE 1024))
    as [rs|er]; simpl.
  2:{ unfold is_initialized; rewrite Hc. repeat split; [eexists; reflexivity|].
      intros H; discriminate H. }
  match goal with |- context [event_loop ?a ?b ?c ?d] =>
    destruct (event_loop_log a b c d) as [s Hs]; destruct (event_loop a b c d) as [st exited]
  end.
  simpl in Hs. destruct exited; simpl; repeat split;
    try (exists (s ++ [StopCapture]); rewrite Hs; reflexivity);
    try (exists s; rewrite Hs; reflexivity);
    try (intros _; exists s; rewrite Hs; reflexivity);
    intros H; discriminate H.
Qed.

End Props.
End EngineExtProofs.

(* ------------------------------------------------------------------ *)
(** ** The controller: readiness, the engine's round trip, the language *)

Module CtrlExtProofs.
Import Ctrl CtrlExt.

Section Props.
Variable Engine : Type.
Variable is_initialized : Engine -> bool.
Variable join_task : Engine -> option Engine.

(** [mark_ready] acts only on an initializing controller, so a second
    call changes nothing; it leaves the controller [Paused], or
    [Listening] when the initial state asks for it and the held engine is
    initialized. *)
Theorem mark_ready_once (initial_state : InitialState) (c : Controller Engine) :
  mark_ready Engine is_initialized initial_state
    (mark_ready Engine is_initialized initial_state c) =
  mark_ready Engine is_initialized initial_state c /\
  state (mark_ready Engine is_initialized initial_state c) =
    match state c with
    | Initializing =>
        match initial_state, engine c with
        | InitialListening, Some en => if is_initialized en then Listening else Paused
        | _, _ => Paused
        end
    | s => s
    end.
Proof.
  destruct c as [s tx en h l]. unfold mark_ready, start_listening.
  destruct s, initial_state; simpl; auto.
  destruct en as [en|]; simpl; [|auto].
  destruct (is_initialized en); simpl; auto.
Qed.

(** From [Paused] with an initialized engine, [start_listening] then
    [stop_listening] gives the engine handed back by the task back to the
    controller, which is [Paused] again with no task, the shutdown sender
    kept, and the four effects spawn, [Listening], cancel, [Paused]. *)
Theorem listen_stop_round_trip (c : Controller Engine) (en en' : Engine) :
  state c = Paused -> engine c = Some en -> is_initialized en = true ->
  join_task en = Some en' ->
  let c2 := fst (stop_listening join_task (fst (start_listening is_initialized c))) in
  state c2 = Paused /\ engine c2 = Some en' /\ engine_handle c2 = None /\
  shutdown_tx c2 = shutdown_tx c /\
  log c2 = log c ++ [SpawnTask; BroadcastState Listening; CancelTask; BroadcastState Paused].
Proof.
  intros Hs He Hi Hj. unfold start_listening. rewrite Hs, He, Hi. simpl.
  unfold stop_listening. simpl. rewrite Hj. simpl.
  repeat split. rewrite <- app_assoc. reflexivity.
Qed.

(** When the engine task panicked, [stop_listening] still pauses the
    controller and broadcasts the panic, but the engine is lost: the next
    [start_listening] fails with "Engine not available". *)
Theorem panicked_task_loses_engine (c : Controller Engine) (h : EngineHandle Engine) :
  state c = Listening -> engine c = None -> engine_handle c = Some h ->
  join_task (task_engine Engine h) = None ->
  let c1 := fst (stop_listening join_task c) in
  state c1 = Paused /\ engine c1 = None /\
  log c1 = log c ++ [CancelTask; BroadcastError "Engine task panicked"; BroadcastState Paused] /\
  start_listening is_initialized c1 = (c1, EngineM.Err ["Engine not available"%string]).
Proof.
  intros Hs He Hh Hj. unfold stop_listening. rewrite Hs, Hh, Hj. simpl.
  rewrite He. repeat split.
Qed.

End Props.

(** [set_language] always updates the in-memory configuration (even when
    saving it fails); when it returns [Ok], [get_language_info] reports
    the new language as active (["auto"] included), and when it fails the
    active language is unchanged. *)
Theorem set_language_round_trip (save : LanguageState -> EngineM.result unit)
    (ls : LanguageState) (language : string) :
  let (ls', r) := set_language save ls language in
  cfg_language ls' = language /\ gui_languages ls' = gui_languages ls /\
  (r = EngineM.Ok tt -> get_language_info ls' = (language, gui_languages ls)) /\
  (r <> EngineM.Ok tt -> fst (get_language_info ls') = fst (get_language_info ls)).
Proof.
  unfold set_language.
  match goal with |- context [save ?x] => destruct (save x) as [u|er] end; simpl.
  - destruct (poisoned ls) eqn:Hp; simpl.
    + split; [reflexivity|]. split; [reflexivity|].
      split; [intros H; discriminate H|]. intros _. unfold get_language_info; simpl.
      reflexivity.
    + split; [reflexivity|]. split; [reflexivity|].
      split; [|intros H; contradiction H; reflexivity].
      intros _. unfold get_language_info; simpl.
      destruct (String.eqb_spec language "auto"); simpl; [subst|]; reflexivity.
  - split; [reflexivity|]. split; [reflexivity|].
    split; [intros H; discriminate H|]. intros _. reflexivity.
Qed.

End CtrlExtProofs.

(* ------------------------------------------------------------------ *)
(** ** Witnesses of the further properties *)

Module ExtWitnesses.
Import ConcreteExt.

(** Ten samples through 4-sample chunks: the last two are dropped. *)
Lemma resampler_drops_partial_chunk_witness :
  0 < Audio.chunk_size resampler4 /\
  Audio.process fft_identity resampler4 (seq 0 10) =
  Audio.process fft_identity resampler4 (firstn 8 (seq 0 10)).
Proof.
  assert (H : 0 < Audio.chunk_size resampler4) by (vm_compute; lia).
  split; [exact H|].
  exact (ResamplerProofs.resampler_drops_partial_chunk nat unit fft_identity resampler4
           (seq 0 10) H).
Defined.

(** A fresh 512-sample detector on a silent chunk. *)
Lemma process_chunk_shape_witness :
  VadDetector.well_shaped detector512 /\
  let (d', r) := VadDetector.process_chunk nat 0 unit (list nat * list nat) session_echo
                   output_tensor state_tensor mismatch_msg "shape"%string detector512
                   (repeat 0 512) in
  VadDetector.well_shaped d' /\ VadDetector.session d' = VadDetector.session detector512 /\
  VadDetector.state_machine d' = VadDetector.state_machine detector512 /\
  VadDetector.chunk_size d' = VadDetector.chunk_size detector512 /\
  (length (repeat 0 512) <> VadDetector.chunk_size detector512 ->
     d' = detector512 /\
     r = EngineM.Err [mismatch_msg (length (repeat 0 512)) (VadDetector.chunk_size detector512)]) /\
  (forall p, r = EngineM.Ok p -> VadDetector.context d' = skipn (length (repeat 0 512) - 64)
                                                         (repeat 0 512)).
Proof.
  assert (H : VadDetector.well_shaped detector512)
    by (unfold VadDetector.well_shaped; vm_compute; auto).
  split; [exact H|].
  exact (DetectorProofs.process_chunk_shape nat 0 unit (list nat * list nat) session_echo
           output_tensor state_tensor mismatch_msg "shape"%string detector512 (repeat 0 512) H).
Defined.

(** A session whose output tensor is missing. *)
Lemma process_chunk_extract_failure_witness :
  VadDetector.well_shaped detector512 /\
  length (repeat 0 512) = VadDetector.chunk_size detector512 /\
  session_echo (VadDetector.session detector512)
    (VadDetector.context detector512 ++ repeat 0 512) (VadDetector.state detector512) =
    EngineM.Ok ([90], repeat 0 256) /\
  VadDetector.context (fst (VadDetector.process_chunk nat 0 unit (list nat * list nat)
    session_echo missing_tensor state_tensor mismatch_msg "shape"%string detector512
    (repeat 0 512))) = skipn (length (repeat 0 512) - 64) (repeat 0 512).
Proof.
  assert (H1 : VadDetector.well_shaped detector512)
    by (unfold VadDetector.well_shaped; vm_compute; auto).
  assert (H2 : length (repeat 0 512) = VadDetector.chunk_size detector512) by reflexivity.
  assert (H3 : session_echo (VadDetector.session detector512)
                 (VadDetector.context detector512 ++ repeat 0 512)
                 (VadDetector.state detector512) = EngineM.Ok ([90], repeat 0 256))
    by reflexivity.
  split; [exact H1|]. split; [exact H2|]. split; [exact H3|].
  exact (proj1 (DetectorProofs.process_chunk_extract_failure nat 0 unit (list nat * list nat)
                  session_echo missing_tensor state_tensor mismatch_msg "shape"%string
                  detector512 (repeat 0 512) ([90], repeat 0 256) H1 H2 H3
                  (ex_intro _ ["Failed to extract output tensor"%string;
                               "output tensor not found"%string] eq_refl))).
Defined.


(** The loop of the concrete platform from empty buffers. *)
Lemma event_loop_buffers_short_witness :
  0 < 1024 /\ 0 < 2 /\
  length (EngineM.input_buffer Concrete.loop_state_silent) < 1024 /\
  length (EngineM.vad_buffer Concrete.loop_state_silent) < 2 /\
  length (EngineM.input_buffer (fst (EngineM.event_loop 1024 2 Concrete.loop_state_silent
                                       Concrete.capture_schedule))) < 1024.
Proof.
  assert (H1 : 0 < 1024) by lia. assert (H2 : 0 < 2) by lia.
  assert (H3 : length (EngineM.input_buffer Concrete.loop_state_silent) < 1024)
    by (simpl; lia).
  assert (H4 : length (EngineM.vad_buffer Concrete.loop_state_silent) < 2) by (simpl; lia).
  split; [exact H1|]. split; [exact H2|]. split; [exact H3|]. split; [exact H4|].
  exact (proj1 (EngineExtProofs.event_loop_buffers_short 1024 2 Concrete.loop_state_silent
                  Concrete.capture_schedule H1 H2 H3 H4)).
Defined.

(** The initialized engine of the concrete platform. *)
Lemma run_loop_keeps_engine_witness :
  EngineM.is_initialized Concrete.engine1 = true /\
  EngineM.is_initialized (fst (fst (EngineM.run_loop Concrete.engine1
                                       Concrete.capture_schedule))) = true.
Proof.
  assert (H : EngineM.is_initialized Concrete.engine1 = true) by (vm_compute; reflexivity).
  split; [exact H|].
  pose proof (EngineExtProofs.run_loop_keeps_engine Concrete.engine1 Concrete.capture_schedule H)
    as Hr.
  destruct (EngineM.run_loop Concrete.engine1 Concrete.capture_schedule) as [[e' effs] r].
  exact (proj1 Hr).
Defined.

(** Start then stop on a paused controller holding an initialized engine. *)
Lemma listen_stop_round_trip_witness :
  Ctrl.state paused_ready_controller = Ctrl.Paused /\
  Ctrl.engine (fst (Ctrl.stop_listening (fun b : bool => Some b)
    (fst (Ctrl.start_listening (fun b : bool => b) paused_ready_controller)))) = Some true.
Proof.
  assert (H : Ctrl.state paused_ready_controller = Ctrl.Paused) by reflexivity.
  split; [exact H|].
  exact (proj1 (proj2 (CtrlExtProofs.listen_stop_round_trip bool (fun b => b) (fun b => Some b)
                         paused_ready_controller true true H eq_refl eq_refl eq_refl))).
Defined.

(** A listening controller whose task panics. *)
Lemma panicked_task_loses_engine_witness :
  Ctrl.state listening_controller = Ctrl.Listening /\
  Ctrl.start_listening (fun b : bool => b)
    (fst (Ctrl.stop_listening (fun _ : bool => None) listening_controller)) =
  (fst (Ctrl.stop_listening (fun _ : bool => None) listening_controller),
   EngineM.Err ["Engine not available"%string]).
Proof.
  assert (H : Ctrl.state listening_controller = Ctrl.Listening) by reflexivity.
  split; [exact H|].
  exact (proj2 (proj2 (proj2 (CtrlExtProofs.panicked_task_loses_engine bool (fun b => b)
           (fun _ => None) listening_controller {| Ctrl.task_engine := true |}
           H eq_refl eq_refl eq_refl)))).
Defined.

End ExtWitnesses.
